(** * Package ccrd: CustomResourceDefinitions derived from a
      CompositeResourceDefinition

    A shallow embedding of [apis/apiextensions/v1alpha1/ccrd/crd.go].

    - Go strings are byte strings: [string].
    - A Go [error] is [option error]; [None] is the nil error.
    - A nil pointer is [None]; dereferencing it panics.
    - A Go map read by this package only through a handle it received
      (labels, annotations) is a reference into the heap; the schema
      property maps, which the package builds itself, are [gmap]s, and a
      nil map is [None].
    - A Go slice is a header (array, offset, length, capacity) over a
      backing array that lives in the heap, so that [append] writes into
      spare capacity where Go does.
    - The argument [xrd *CompositeResourceDefinition] is the record the
      pointer refers to; the package assigns to no field of it. *)

From Stdlib Require Import Ascii String.
From stdpp Require Import gmap strings list fin_maps.

#[local] Set Warnings "-register-all".

(** ** github.com/pkg/errors *)

Inductive error :=
  | errors_New (msg : string)
  | errors_Wrap (cause : error) (msg : string).

(** [Error()] of a wrapped error is the context, a colon, the cause. *)
Fixpoint Error (e : error) : string :=
  match e with
  | errors_New msg => msg
  | errors_Wrap cause msg => msg +:+ ": " +:+ Error cause
  end.

(** [fmt.Sprintf] for a format and one operand, printed by the verb %q
    through [quote] ([strconv.Quote]); the text around the verb is copied. *)
Fixpoint Sprintf (quote : string → string) (format arg : string) : string :=
  match format with
  | "" => ""
  | String "%"%char (String "q"%char rest) => quote arg +:+ rest
  | String c rest => String c (Sprintf quote rest arg)
  end.

(** [includes needle hay]: [needle] occurs in [hay] as a substring. *)
Fixpoint includes (needle hay : string) : bool :=
  String.prefix needle hay ||
  match hay with
  | "" => false
  | String _ rest => includes needle rest
  end.

(** ** Constants of the package *)

Definition CategoryClaim : string := "claim".
Definition CategoryComposite : string := "composite".

Definition errGetSpecProps : string := "cannot get spec properties from validation schema".
Definition errParseValidation : string := "cannot parse validation schema".
Definition errInvalidClaimNames : string := "invalid resource claim names".
Definition errMissingClaimNames : string := "missing names".
Definition errFmtConflictingClaimName : string := "%q conflicts with composite resource name".

(** ** Panics and the two monads *)

Inductive panic :=
  | NilPointerDereference
  | AssignmentToEntryInNilMap
  | IndexOutOfRange.

Inductive outcome (A : Type) :=
  | Return (a : A)
  | Panicked (p : panic).
Arguments Return {A} a.
Arguments Panicked {A} p.

#[export] Instance outcome_ret : MRet outcome := λ A a, Return a.
#[export] Instance outcome_bind : MBind outcome := λ A B f m,
  match m with
  | Return a => f a
  | Panicked p => Panicked p
  end.

(** ** Slices over backing arrays *)

Definition loc := nat.

Record slice := Slice { array : loc; offset : nat; len : nat; cap : nat }.

Definition nilSlice : slice := Slice 0 0 0 0.

Section slices.
Context {A : Type} (zero : A).
Implicit Types (h : gmap loc (list A)) (s t : slice) (xs : list A).

(** The elements a slice shows: [len] cells of its array from [offset]. *)
Definition elements h s : list A :=
  take (len s) (drop (offset s) (default [] (h !! array s))).

(** Overwrite the cells [i, i + length xs) of the array at [l]. *)
Definition store h (l : loc) (i : nat) xs : gmap loc (list A) :=
  alter (λ a, take i a ++ xs ++ drop (i + length xs) a) l h.

(** [append(s, xs...)]: in place when the capacity suffices, otherwise
    into a new array with [slack] spare cells after the elements. *)
Definition append (slack : nat) s xs h : slice * gmap loc (list A) :=
  if decide (len s + length xs ≤ cap s) then
    (Slice (array s) (offset s) (len s + length xs) (cap s),
     store h (array s) (offset s + len s) xs)
  else
    let l := fresh (dom h) in
    (Slice l 0 (len s + length xs) (len s + length xs + slack),
     <[l := elements h s ++ xs ++ replicate slack zero]> h).

(** A slice header fits its array; a slice without capacity needs none. *)
Definition wf h s : Prop :=
  len s ≤ cap s ∧
  (cap s = 0 ∨ offset s + cap s ≤ length (default [] (h !! array s))).

(** Appending [k] elements to [s] writes no cell that [t] shows. *)
Definition apart (k : nat) s t : Prop :=
  k = 0 ∨ cap s < len s + k ∨ len t = 0 ∨ array s ≠ array t ∨
  offset t + len t ≤ offset s + len s ∨ offset s + len s + k ≤ offset t.
End slices.

(** ** k8s.io/apiextensions-apiserver/pkg/apis/apiextensions/v1 *)

Module Condition.
Record t := Build { Type_ : string; Status : string }.
End Condition.

Definition Established : string := "Established".
Definition ConditionTrue : string := "True".
Definition ConditionFalse : string := "False".
Definition ConditionUnknown : string := "Unknown".

Record CustomResourceDefinitionStatus := {
  Conditions : list Condition.t
}.

Module Names.
Record t := Build {
  Plural : string;
  Singular : string;
  ShortNames : slice;
  Kind : string;
  ListKind : string;
  Categories : slice
}.
End Names.

Module Column.
Record t := Build { Name : string; Type_ : string; JSONPath : string }.
Definition zero : t := Build "" "" "".
End Column.

(** The fields of [JSONSchemaProps] the package reads or writes, and the
    description as one of those it only carries along. *)
Inductive JSONSchemaProps := {
  Type_ : string;
  Description : string;
  Properties : option (gmap string JSONSchemaProps)
}.

Definition zeroJSONSchemaProps : JSONSchemaProps :=
  {| Type_ := ""; Description := ""; Properties := None |}.

(** [IsEstablished]: the loop over the conditions. *)
Fixpoint isEstablished (conditions : list Condition.t) : bool :=
  match conditions with
  | [] => false
  | c :: rest =>
      if decide (Condition.Type_ c = Established)
      then bool_decide (Condition.Status c = ConditionTrue)
      else isEstablished rest
  end.

Definition IsEstablished (s : CustomResourceDefinitionStatus) : bool :=
  isEstablished (Conditions s).

Inductive ResourceScope := ClusterScoped | NamespaceScoped.

Record CustomResourceValidation := {
  OpenAPIV3Schema : option JSONSchemaProps
}.

Record CustomResourceSubresourceStatus := { }.

Record CustomResourceSubresources := {
  Status : option CustomResourceSubresourceStatus
}.

Module CustomResourceDefinitionVersion.
Record t := Build {
  Name : string;
  Served : bool;
  Storage : bool;
  Schema : option CustomResourceValidation;
  Subresources : option CustomResourceSubresources;
  AdditionalPrinterColumns : slice
}.
(** The element [make] fills a new slice with. *)
Definition zero : t := Build "" false false None None nilSlice.
End CustomResourceDefinitionVersion.

(** ** k8s.io/apimachinery/pkg/apis/meta/v1 *)

Module OwnerReference.
Record t := Build {
  APIVersion : string;
  Kind : string;
  Name : string;
  UID : string;
  Controller : option bool
}.
End OwnerReference.

Module ObjectMeta.
Record t := Build {
  Name : string;
  UID : string;
  Labels : option loc;
  Annotations : option loc;
  OwnerReferences : list OwnerReference.t
}.
Definition zero : t := Build "" "" None None [].

Definition SetName (name : string) (o : t) : t :=
  Build name (UID o) (Labels o) (Annotations o) (OwnerReferences o).
Definition SetLabels (labels : option loc) (o : t) : t :=
  Build (Name o) (UID o) labels (Annotations o) (OwnerReferences o).
Definition SetAnnotations (annotations : option loc) (o : t) : t :=
  Build (Name o) (UID o) (Labels o) annotations (OwnerReferences o).
Definition SetOwnerReferences (refs : list OwnerReference.t) (o : t) : t :=
  Build (Name o) (UID o) (Labels o) (Annotations o) refs.
End ObjectMeta.

Module CustomResourceDefinitionSpec.
Record t := Build {
  Group : string;
  Names : Names.t;
  Scope : ResourceScope;
  Versions : list CustomResourceDefinitionVersion.t
}.
End CustomResourceDefinitionSpec.

Module CustomResourceDefinition.
Record t := Build {
  Meta : ObjectMeta.t;
  Spec : CustomResourceDefinitionSpec.t
}.
End CustomResourceDefinition.

(** ** github.com/crossplane/crossplane/apis/apiextensions/v1alpha1

    The declarations are not part of the excerpt; the records hold the
    fields [crd.go] reads. *)

Record RawExtension := { Raw : list Byte.byte }.

Record CompositeResourceValidation := {
  RawOpenAPIV3Schema : RawExtension
}.

Module CompositeResourceDefinitionVersion.
Record t := Build {
  Name : string;
  Referenceable : bool;
  Served : bool;
  Schema : option CompositeResourceValidation;
  AdditionalPrinterColumns : slice
}.
End CompositeResourceDefinitionVersion.

Module CompositeResourceDefinitionSpec.
Record t := Build {
  Group : string;
  Names : Names.t;
  ClaimNames : option Names.t;
  Versions : list CompositeResourceDefinitionVersion.t
}.
End CompositeResourceDefinitionSpec.

Module CompositeResourceDefinition.
Record t := Build {
  Meta : ObjectMeta.t;
  Spec : CompositeResourceDefinitionSpec.t
}.
End CompositeResourceDefinition.

(** ** The heap *)

Record heap := Heap {
  strings : gmap loc (list string);
  columns : gmap loc (list Column.t);
  maps : gmap loc (gmap string string)
}.

Definition M (A : Type) : Type := heap → outcome A * heap.

#[export] Instance M_ret : MRet M := λ A a h, (Return a, h).
#[export] Instance M_bind : MBind M := λ A B f m h,
  match m h with
  | (Return a, h') => f a h'
  | (Panicked p, h') => (Panicked p, h')
  end.

Definition lift {A} (o : outcome A) : M A := λ h, (o, h).

(** ** What the package takes from elsewhere *)

Class Externals := {
  (** [strconv.Quote], which the verb %q prints a string with. *)
  strconv_Quote : string → string;
  (** [json.Unmarshal] into an empty [JSONSchemaProps]: the decoded
      document, or the error. *)
  json_Unmarshal : list Byte.byte → JSONSchemaProps + error;
  (** The spare cells the runtime gives a slice that [append] moves, from
      its old capacity and the length it needs. *)
  growslice : nat → nat → nat;
  (** API version and kind of
      [v1alpha1.CompositeResourceDefinitionGroupVersionKind]. *)
  CompositeResourceDefinitionGroupVersionKind : string * string;
  (** Modelled from the spec: the tables of the package that the excerpt
      calls and does not define. Each call of [BaseProps()] builds its maps
      anew ("Initialize a base object schema"), so a table is a value; the
      property maps of its "spec" and "status" objects are two maps
      ("merged independently"). *)
  BaseProps : gmap string JSONSchemaProps;
  CompositeResourceSpecProps : gmap string JSONSchemaProps;
  CompositeResourceClaimSpecProps : gmap string JSONSchemaProps;
  CompositeResourceStatusProps : gmap string JSONSchemaProps;
  CompositeResourcePrinterColumns : list Column.t;
  CompositeResourceClaimPrinterColumns : list Column.t
}.

Section ccrd.
Context `{Externals}.

Import CompositeResourceDefinition CompositeResourceDefinitionSpec.

(** *** crossplane-runtime/pkg/meta *)

(** [meta.AsController(meta.TypedReferenceTo(o, gvk))]. *)
Definition AsController_TypedReferenceTo
    (o : ObjectMeta.t) (gvk : string * string) : OwnerReference.t :=
  OwnerReference.Build gvk.1 gvk.2 (ObjectMeta.Name o) (ObjectMeta.UID o) (Some true).

(** *** validateClaimNames *)

Definition errors_Errorf (format arg : string) : error :=
  errors_New (Sprintf strconv_Quote format arg).

Definition validateClaimNames (d : CompositeResourceDefinition.t) : option error :=
  match ClaimNames (Spec d) with
  | None => Some (errors_New errMissingClaimNames)
  | Some claim =>
      let n := Names.Kind claim in
      if decide (n = Names.Kind (Names (Spec d)))
      then Some (errors_Errorf errFmtConflictingClaimName n) else
      let n := Names.Plural claim in
      if decide (n = Names.Plural (Names (Spec d)))
      then Some (errors_Errorf errFmtConflictingClaimName n) else
      let n := Names.Singular claim in
      if decide (n ≠ "" ∧ n = Names.Singular (Names (Spec d)))
      then Some (errors_Errorf errFmtConflictingClaimName n) else
      let n := Names.ListKind claim in
      if decide (n ≠ "" ∧ n = Names.ListKind (Names (Spec d)))
      then Some (errors_Errorf errFmtConflictingClaimName n) else
      None
  end.

(** *** getSpecProps *)

Definition getSpecProps (v : option CompositeResourceValidation)
    : option (gmap string JSONSchemaProps) * option error :=
  match v with
  | None => (None, None)
  | Some v =>
      match json_Unmarshal (Raw (RawOpenAPIV3Schema v)) with
      | inr err => (None, Some (errors_Wrap err errParseValidation))
      | inl s =>
          match Properties s ≫= (.!! "spec") with
          | None => (None, None)
          | Some spec => (Properties spec, None)
          end
      end
  end.

(** *** The loop over the versions *)

#[local] Abbreviation CRDVersion := CustomResourceDefinitionVersion.t.
#[local] Abbreviation Version := CompositeResourceDefinitionVersion.t.

Definition appendStrings (s : slice) (xs : list string) : M slice := λ h,
  let '(s', a) :=
    append "" (growslice (cap s) (len s + length xs)) s xs (strings h) in
  (Return s', Heap a (columns h) (maps h)).

Definition appendColumns (s : slice) (xs : list Column.t) : M slice := λ h,
  let '(s', a) :=
    append Column.zero (growslice (cap s) (len s + length xs)) s xs (columns h) in
  (Return s', Heap (strings h) a (maps h)).

(** [l[i] = x] *)
Definition assignIndex {A} (i : nat) (x : A) (l : list A) : outcome (list A) :=
  if decide (i < length l) then Return (<[i := x]> l)
  else Panicked IndexOutOfRange.

Definition withProperties (schema : JSONSchemaProps)
    (props : gmap string JSONSchemaProps) : JSONSchemaProps :=
  {| Type_ := Type_ schema; Description := Description schema;
     Properties := Some props |}.

Definition withSchema (ver : CRDVersion) (schema : JSONSchemaProps) : CRDVersion :=
  CustomResourceDefinitionVersion.Build
    (CustomResourceDefinitionVersion.Name ver)
    (CustomResourceDefinitionVersion.Served ver)
    (CustomResourceDefinitionVersion.Storage ver)
    (Some {| OpenAPIV3Schema := Some schema |})
    (CustomResourceDefinitionVersion.Subresources ver)
    (CustomResourceDefinitionVersion.AdditionalPrinterColumns ver).

(** [versions[i].Schema.OpenAPIV3Schema.Properties[underKey].Properties[k] = v].
    The two pointers are dereferenced; a key missing from [Properties]
    reads as the zero schema, whose own [Properties] is the nil map, and
    an assignment to an entry of a nil map panics. The inner map is
    updated in place, which shows at [underKey] of the outer one. *)
Definition assignProperty (i : nat) (underKey k : string) (v : JSONSchemaProps)
    (versions : list CRDVersion) : outcome (list CRDVersion) :=
  match versions !! i with
  | None => Panicked IndexOutOfRange
  | Some ver =>
  match CustomResourceDefinitionVersion.Schema ver with
  | None => Panicked NilPointerDereference
  | Some validation =>
  match OpenAPIV3Schema validation with
  | None => Panicked NilPointerDereference
  | Some schema =>
  match Properties schema with
  | None => Panicked AssignmentToEntryInNilMap
  | Some props =>
  match props !! underKey with
  | None => Panicked AssignmentToEntryInNilMap
  | Some under =>
  match Properties under with
  | None => Panicked AssignmentToEntryInNilMap
  | Some m =>
      Return (<[i := withSchema ver (withProperties schema
                (<[underKey := withProperties under (<[k := v]> m)]> props))]>
              versions)
  end end end end end end.

(** [for k, v := range layer { ... = v }], over the entries in the order
    the iteration visits them. *)
Fixpoint rangeAssign (i : nat) (underKey : string)
    (layer : list (string * JSONSchemaProps))
    (versions : list CRDVersion) : outcome (list CRDVersion) :=
  match layer with
  | [] => Return versions
  | (k, v) :: rest =>
      versions ← assignProperty i underKey k v versions;
      rangeAssign i underKey rest versions
  end.

(** The version record one iteration starts from. *)
Definition newVersion (vr : Version) (printerColumns : slice) : CRDVersion :=
  CustomResourceDefinitionVersion.Build
    (CompositeResourceDefinitionVersion.Name vr)
    (CompositeResourceDefinitionVersion.Served vr)
    (CompositeResourceDefinitionVersion.Referenceable vr)
    (Some {| OpenAPIV3Schema := Some
       {| Type_ := "object"; Description := ""; Properties := Some BaseProps |} |})
    (Some {| Status := Some Build_CustomResourceSubresourceStatus |})
    printerColumns.

(** [for i, vr := range xrd.Spec.Versions { ... }], from index [i] on.
    The two functions run the same loop with their own printer columns
    and spec properties. [inr err] is the [return nil, err] inside the
    loop, [inl versions] the end of the loop. *)
Fixpoint forVersions (printerColumns : list Column.t)
    (specProps : gmap string JSONSchemaProps)
    (i : nat) (vrs : list Version) (versions : list CRDVersion)
    : M (list CRDVersion + error) :=
  match vrs with
  | [] => mret (inl versions)
  | vr :: rest =>
      cols ← appendColumns
        (CompositeResourceDefinitionVersion.AdditionalPrinterColumns vr)
        printerColumns;
      versions ← lift (assignIndex i (newVersion vr cols) versions);
      match getSpecProps (CompositeResourceDefinitionVersion.Schema vr) with
      | (_, Some err) => mret (inr (errors_Wrap err errGetSpecProps))
      | (p, None) =>
          versions ← lift (rangeAssign i "spec" (map_to_list (default ∅ p)) versions);
          versions ← lift (rangeAssign i "spec" (map_to_list specProps) versions);
          versions ← lift (rangeAssign i "status"
                             (map_to_list CompositeResourceStatusProps) versions);
          forVersions printerColumns specProps (S i) rest versions
      end
  end.

(** *** The two entry points *)

#[local] Abbreviation CRD := CustomResourceDefinition.t.

Definition withCategories (n : Names.t) (categories : slice) : Names.t :=
  Names.Build (Names.Plural n) (Names.Singular n) (Names.ShortNames n)
    (Names.Kind n) (Names.ListKind n) categories.

(** The definition both functions build before the loop, from the scope,
    the name and the names they choose. *)
Definition newDefinition (xrd : CompositeResourceDefinition.t)
    (scope : ResourceScope) (name : string) (names : Names.t) : CRD :=
  CustomResourceDefinition.Build
    (ObjectMeta.SetOwnerReferences
       [AsController_TypedReferenceTo (Meta xrd)
          CompositeResourceDefinitionGroupVersionKind]
    (ObjectMeta.SetAnnotations (ObjectMeta.Annotations (Meta xrd))
    (ObjectMeta.SetLabels (ObjectMeta.Labels (Meta xrd))
    (ObjectMeta.SetName name ObjectMeta.zero))))
    (CustomResourceDefinitionSpec.Build (Group (Spec xrd)) names scope
       (replicate (length (Versions (Spec xrd)))
          CustomResourceDefinitionVersion.zero)).

Definition setCategories (crd : CRD) (categories : slice) : CRD :=
  let spec := CustomResourceDefinition.Spec crd in
  CustomResourceDefinition.Build (CustomResourceDefinition.Meta crd)
    (CustomResourceDefinitionSpec.Build
       (CustomResourceDefinitionSpec.Group spec)
       (withCategories (CustomResourceDefinitionSpec.Names spec) categories)
       (CustomResourceDefinitionSpec.Scope spec)
       (CustomResourceDefinitionSpec.Versions spec)).

Definition setVersions (crd : CRD) (versions : list CRDVersion) : CRD :=
  let spec := CustomResourceDefinition.Spec crd in
  CustomResourceDefinition.Build (CustomResourceDefinition.Meta crd)
    (CustomResourceDefinitionSpec.Build
       (CustomResourceDefinitionSpec.Group spec)
       (CustomResourceDefinitionSpec.Names spec)
       (CustomResourceDefinitionSpec.Scope spec)
       versions).

(** What follows the construction in both functions: the category is
    appended, the loop runs, and the definition or the error returns. *)
Definition derive (xrd : CompositeResourceDefinition.t) (crd : CRD)
    (category : string) (printerColumns : list Column.t)
    (specProps : gmap string JSONSchemaProps) : M (option CRD * option error) :=
  categories ← appendStrings
    (Names.Categories (CustomResourceDefinitionSpec.Names
                         (CustomResourceDefinition.Spec crd)))
    [category];
  let crd := setCategories crd categories in
  r ← forVersions printerColumns specProps 0 (Versions (Spec xrd))
        (CustomResourceDefinitionSpec.Versions (CustomResourceDefinition.Spec crd));
  match r with
  | inr err => mret (None, Some err)
  | inl versions => mret (Some (setVersions crd versions), None)
  end.

Definition ForCompositeResource (xrd : CompositeResourceDefinition.t)
    : M (option CRD * option error) :=
  let crd := newDefinition xrd ClusterScoped (ObjectMeta.Name (Meta xrd))
               (Names (Spec xrd)) in
  derive xrd crd CategoryComposite CompositeResourcePrinterColumns
    CompositeResourceSpecProps.

Definition ForCompositeResourceClaim (xrd : CompositeResourceDefinition.t)
    : M (option CRD * option error) :=
  match validateClaimNames xrd with
  | Some err => mret (None, Some (errors_Wrap err errInvalidClaimNames))
  | None =>
      match ClaimNames (Spec xrd) with
      | None => lift (Panicked NilPointerDereference)
      | Some claim =>
          let crd := newDefinition xrd NamespaceScoped
                       (Names.Plural claim +:+ "." +:+ Group (Spec xrd)) claim in
          derive xrd crd CategoryClaim CompositeResourceClaimPrinterColumns
            CompositeResourceClaimSpecProps
      end
  end.
End ccrd.

(** ** The specification's vocabulary *)

(** The failures of name validation as the specification names them. *)
Inductive NameField := FieldKind | FieldPlural | FieldSingular | FieldListKind.

Inductive ValidationFailure :=
  | MissingClaimNames
  | NameConflict (field : NameField) (value : string).



(** The rules of the specification in their order: the field, the claim's
    value, and whether the rule is violated. *)
Definition conflictRules (claim composite : Names.t) : list (NameField * string * bool) :=
  [ (FieldKind, Names.Kind claim,
     bool_decide (Names.Kind claim = Names.Kind composite));
    (FieldPlural, Names.Plural claim,
     bool_decide (Names.Plural claim = Names.Plural composite));
    (FieldSingular, Names.Singular claim,
     negb (bool_decide (Names.Singular claim = "")) &&
     bool_decide (Names.Singular claim = Names.Singular composite));
    (FieldListKind, Names.ListKind claim,
     negb (bool_decide (Names.ListKind claim = "")) &&
     bool_decide (Names.ListKind claim = Names.ListKind composite)) ].

(** Specification 4.1: [MissingClaimNames] without a claim name set,
    otherwise the first violated rule, otherwise success. *)
Definition validate (d : CompositeResourceDefinition.t) : option ValidationFailure :=
  match CompositeResourceDefinitionSpec.ClaimNames (CompositeResourceDefinition.Spec d) with
  | None => Some MissingClaimNames
  | Some claim =>
      match list_find (λ r, r.2 = true)
              (conflictRules claim
                 (CompositeResourceDefinitionSpec.Names (CompositeResourceDefinition.Spec d))) with
      | Some (_, (field, value, _)) => Some (NameConflict field value)
      | None => None
      end
  end.

(** The error value the package builds for a failure. *)
Definition failureError `{Externals} (f : ValidationFailure) : error :=
  match f with
  | MissingClaimNames => errors_New errMissingClaimNames
  | NameConflict _ value => errors_Errorf errFmtConflictingClaimName value
  end.

(** The subtree at the path "properties.spec.properties" of a document,
    [None] when the path is absent. *)
Definition specProperties (s : JSONSchemaProps) : option (gmap string JSONSchemaProps) :=
  match Properties s with
  | Some props =>
      match props !! "spec" with
      | Some spec => Properties spec
      | None => None
      end
  | None => None
  end.

(** Specification 4.3, [mergeInto(target, layer, underKey)]: every key of
    the layer is set in the properties of the object at [underKey]; the
    other keys stay. *)
Definition mergeInto (target layer : gmap string JSONSchemaProps)
    (underKey : string) : gmap string JSONSchemaProps :=
  match target !! underKey with
  | Some under =>
      match Properties under with
      | Some m => <[underKey := withProperties under (layer ∪ m)]> target
      | None => target
      end
  | None => target
  end.

(** The object at [underKey] has a property map that can be written. *)
Definition declares (props : gmap string JSONSchemaProps) (underKey : string) : Prop :=
  is_Some (props !! underKey ≫= Properties).

(** The base schema has the two objects the layers are written under. *)
Definition baseDeclared `{Externals} : Prop :=
  declares BaseProps "spec" ∧ declares BaseProps "status".

(** The properties of [target] under [underKey]. *)
Definition under (target : gmap string JSONSchemaProps) (underKey : string)
    : gmap string JSONSchemaProps :=
  default ∅ (target !! underKey ≫= Properties).

(** Specification 4.3 and 4.4: the three layers in their order on the
    base schema. *)
Definition layered `{Externals} (p : option (gmap string JSONSchemaProps))
    (specProps : gmap string JSONSchemaProps) : gmap string JSONSchemaProps :=
  mergeInto
    (mergeInto (mergeInto BaseProps (default ∅ p) "spec") specProps "spec")
    CompositeResourceStatusProps "status".

Definition assembled `{Externals} (p : option (gmap string JSONSchemaProps))
    (specProps : gmap string JSONSchemaProps) : JSONSchemaProps :=
  {| Type_ := "object"; Description := "";
     Properties := Some (layered p specProps) |}.

(** Every schema of the versions is absent or decodes. *)
Definition parses `{Externals} (vrs : list CompositeResourceDefinitionVersion.t) : Prop :=
  Forall (λ vr, (getSpecProps (CompositeResourceDefinitionVersion.Schema vr)).2 = None) vrs.

(** A generated version is the projection of an input version. *)
Definition projects `{Externals} (specProps : gmap string JSONSchemaProps)
    (vr : CompositeResourceDefinitionVersion.t)
    (v : CustomResourceDefinitionVersion.t) : Prop :=
  CustomResourceDefinitionVersion.Name v = CompositeResourceDefinitionVersion.Name vr ∧
  CustomResourceDefinitionVersion.Served v = CompositeResourceDefinitionVersion.Served vr ∧
  CustomResourceDefinitionVersion.Storage v =
    CompositeResourceDefinitionVersion.Referenceable vr ∧
  CustomResourceDefinitionVersion.Subresources v =
    Some {| Status := Some Build_CustomResourceSubresourceStatus |} ∧
  ∃ p, getSpecProps (CompositeResourceDefinitionVersion.Schema vr) = (p, None) ∧
       CustomResourceDefinitionVersion.Schema v =
         Some {| OpenAPIV3Schema := Some (assembled p specProps) |}.

(** Specification 4.4: the generated version of an input version, with
    the slice of its printer columns and the parsed spec properties. *)
Definition projected `{Externals} (vr : CompositeResourceDefinitionVersion.t)
    (cols : slice) (p : option (gmap string JSONSchemaProps))
    (specProps : gmap string JSONSchemaProps) : CustomResourceDefinitionVersion.t :=
  CustomResourceDefinitionVersion.Build
    (CompositeResourceDefinitionVersion.Name vr)
    (CompositeResourceDefinitionVersion.Served vr)
    (CompositeResourceDefinitionVersion.Referenceable vr)
    (Some {| OpenAPIV3Schema := Some (assembled p specProps) |})
    (Some {| Status := Some Build_CustomResourceSubresourceStatus |})
    cols.

(** ** What the input reaches in the heap *)

Definition namesSlices (n : Names.t) : list slice :=
  [Names.ShortNames n; Names.Categories n].

Definition stringSlices (d : CompositeResourceDefinition.t) : list slice :=
  namesSlices (CompositeResourceDefinitionSpec.Names (CompositeResourceDefinition.Spec d)) ++
  from_option namesSlices []
    (CompositeResourceDefinitionSpec.ClaimNames (CompositeResourceDefinition.Spec d)).

Definition columnSlices (d : CompositeResourceDefinition.t) : list slice :=
  CompositeResourceDefinitionVersion.AdditionalPrinterColumns <$>
  CompositeResourceDefinitionSpec.Versions (CompositeResourceDefinition.Spec d).

Definition mapRefs (d : CompositeResourceDefinition.t) : list (option loc) :=
  [ObjectMeta.Labels (CompositeResourceDefinition.Meta d);
   ObjectMeta.Annotations (CompositeResourceDefinition.Meta d)].

(** The value of the input: what its slices show and what its maps hold
    (short names and categories of both name sets, the printer columns of
    the versions, labels and annotations). The strings, flags and raw
    schemas are in the record itself. *)
Definition contents (h : heap) (d : CompositeResourceDefinition.t)
    : list (list string) * list (list Column.t) * list (option (gmap string string)) :=
  (elements (strings h) <$> stringSlices d,
   elements (columns h) <$> columnSlices d,
   (λ r : option loc, r ≫= (maps h !!.)) <$> mapRefs d).

Definition wellFormed (h : heap) (d : CompositeResourceDefinition.t) : Prop :=
  Forall (wf (strings h)) (stringSlices d) ∧
  Forall (wf (columns h)) (columnSlices d).

(** Neither the category appended to [categories] nor the [k] printer
    columns appended to the columns of a version land on a cell that a
    slice of the input shows. *)
Definition separated (categories : slice) (k : nat)
    (d : CompositeResourceDefinition.t) : Prop :=
  Forall (apart 1 categories) (stringSlices d) ∧
  Forall (λ s, Forall (apart k s) (columnSlices d)) (columnSlices d).

(** ** An instance for the examples *)

Module Demo.
Definition dquote : ascii := "034"%char.
Definition backslash : ascii := "092"%char.

Definition hexDigit (n : nat) : ascii :=
  default "0"%char (list_ascii_of_string "0123456789abcdef" !! n).

(** [strconv.Quote] on a byte: the escapes of Go for the quote, the
    backslash and the control characters; a byte above 0x7e is written
    as Go writes a byte that is no UTF-8. *)
Definition quoteByte (c : ascii) : string :=
  let n := nat_of_ascii c in
  if decide (c = dquote) then String backslash (String dquote "")
  else if decide (c = backslash) then String backslash (String backslash "")
  else if decide (n = 7) then String backslash "a"
  else if decide (n = 8) then String backslash "b"
  else if decide (n = 12) then String backslash "f"
  else if decide (n = 10) then String backslash "n"
  else if decide (n = 13) then String backslash "r"
  else if decide (n = 9) then String backslash "t"
  else if decide (n = 11) then String backslash "v"
  else if decide (n < 32 ∨ 126 < n)
    then String backslash (String "x" (String (hexDigit (n / 16))
                                         (String (hexDigit (n mod 16)) "")))
  else String c "".

Fixpoint quoteBytes (s : string) : string :=
  match s with
  | "" => String dquote ""
  | String c rest => quoteByte c +:+ quoteBytes rest
  end.

Definition Quote (s : string) : string := String dquote (quoteBytes s).

Definition jsonString (s : string) : string :=
  String dquote (s +:+ String dquote "").

(** The document
    {"properties":{"spec":{"properties":{"compositionRef":{"type":"string"}}}}}. *)
Definition refDocument : list Byte.byte :=
  list_byte_of_string
    ("{" +:+ jsonString "properties" +:+ ":{" +:+ jsonString "spec" +:+ ":{" +:+
     jsonString "properties" +:+ ":{" +:+ jsonString "compositionRef" +:+ ":{" +:+
     jsonString "type" +:+ ":" +:+ jsonString "string" +:+ "}}}}}").

Definition emptyDocument : list Byte.byte := list_byte_of_string "{}".

Definition typed (type : string) (props : option (gmap string JSONSchemaProps))
    : JSONSchemaProps :=
  {| Type_ := type; Description := ""; Properties := props |}.

Definition refSchema : JSONSchemaProps :=
  typed "" (Some {[ "spec" :=
    typed "" (Some {[ "compositionRef" := typed "string" None ]}) ]}).

(** A decoder for the documents of the examples: the two documents
    above, and the empty input, which [json.Unmarshal] rejects as
    every other input is rejected here. *)
Definition Unmarshal (raw : list Byte.byte) : JSONSchemaProps + error :=
  let text := string_of_list_byte raw in
  if decide (text = string_of_list_byte emptyDocument) then inl zeroJSONSchemaProps
  else if decide (text = string_of_list_byte refDocument) then inl refSchema
  else inr (errors_New "unexpected end of JSON input").

#[export] Instance externals : Externals := {|
  strconv_Quote := Quote;
  json_Unmarshal := Unmarshal;
  growslice := λ old needed, old;
  CompositeResourceDefinitionGroupVersionKind :=
    ("apiextensions.crossplane.io/v1alpha1", "CompositeResourceDefinition");
  BaseProps :=
    {[ "apiVersion" := typed "string" None;
       "kind" := typed "string" None;
       "metadata" := typed "object" None;
       "spec" := typed "object" (Some ∅);
       "status" := typed "object" (Some ∅) ]};
  CompositeResourceSpecProps :=
    {[ "compositionRef" := typed "object" None;
       "resourceRefs" := typed "array" None ]};
  CompositeResourceClaimSpecProps :=
    {[ "compositionRef" := typed "object" None;
       "resourceRef" := typed "object" None ]};
  CompositeResourceStatusProps :=
    {[ "conditions" := typed "array" None ]};
  CompositeResourcePrinterColumns :=
    [Column.Build "READY" "string" ".status.conditions[?(@.type=='Ready')].status"];
  CompositeResourceClaimPrinterColumns :=
    [Column.Build "READY" "string" ".status.conditions[?(@.type=='Ready')].status";
     Column.Build "CONNECTION-SECRET" "string" ".spec.writeConnectionSecretToRef.name"]
|}.

Definition names (kind plural : string) (categories : slice) : Names.t :=
  Names.Build plural "" nilSlice kind "" categories.

Definition version (name : string) (referenceable served : bool)
    (raw : option (list Byte.byte)) (cols : slice)
    : CompositeResourceDefinitionVersion.t :=
  CompositeResourceDefinitionVersion.Build name referenceable served
    ((λ r, {| RawOpenAPIV3Schema := {| Raw := r |} |}) <$> raw) cols.

Definition definition (composite : Names.t) (claim : option Names.t)
    (versions : list CompositeResourceDefinitionVersion.t)
    : CompositeResourceDefinition.t :=
  CompositeResourceDefinition.Build
    (ObjectMeta.Build "things.example.org" "uid-1" (Some 0) None [])
    (CompositeResourceDefinitionSpec.Build "example.org" composite claim versions).

(** A heap with one array of strings of two cells, one array of columns
    of one cell, and the map of the labels. *)
Definition heap0 : heap :=
  Heap {[ 1 := ["all"; "mine"] ]}
       {[ 1 := [Column.Build "AGE" "date" ".metadata.creationTimestamp"] ]}
       {[ 0 := {[ "app" := "demo" ]} ]}.

(** The categories of the composite are [array[0:1]] with capacity 2,
    those of the claim [array[0:2]], as when the second list was made
    by appending to the first. *)
Definition sharing : CompositeResourceDefinition.t :=
  definition (names "Thing" "things" (Slice 1 0 1 2))
             (Some (names "ThingClaim" "thingclaims" (Slice 1 0 2 2)))
             [].

(** The same without the shared array: the claim has no categories. *)
Definition plain : CompositeResourceDefinition.t :=
  definition (names "Thing" "things" (Slice 1 0 1 2))
             (Some (names "ThingClaim" "thingclaims" nilSlice))
             [version "v1alpha1" false true (Some refDocument) (Slice 1 0 1 1);
              version "v1" true true None nilSlice].

(** The claim takes the kind of the composite. *)
Definition conflicting : CompositeResourceDefinition.t :=
  definition (names "Thing" "things" nilSlice)
             (Some (names "Thing" "thingclaims" nilSlice))
             [].

(** No claim names, and a version whose schema is the empty input. *)
Definition unclaimed : CompositeResourceDefinition.t :=
  definition (names "Thing" "things" nilSlice) None
             [version "v1" true true (Some []) nilSlice].

(** Claim names apart from the composite's, and the same version. *)
Definition malformed : CompositeResourceDefinition.t :=
  definition (names "Thing" "things" nilSlice)
             (Some (names "ThingClaim" "thingclaims" nilSlice))
             [version "v1alpha1" false true None nilSlice;
              version "v1" true true (Some []) nilSlice].

(** Two versions of one name, both referenceable. *)
Definition duplicated : CompositeResourceDefinition.t :=
  definition (names "Thing" "things" nilSlice)
             (Some (names "ThingClaim" "thingclaims" nilSlice))
             [version "v1" true true None nilSlice;
              version "v1" true false (Some emptyDocument) nilSlice].

Definition condition (type status : string) : Condition.t :=
  Condition.Build type status.

Definition established : CustomResourceDefinitionStatus :=
  {| Conditions := [condition "NamesAccepted" "False";
                    condition "Established" "True";
                    condition "Established" "False"] |}.

Definition notEstablished : CustomResourceDefinitionStatus :=
  {| Conditions := [condition "Established" "False";
                    condition "Established" "True"] |}.
End Demo.

(** ** An example with room in the arrays *)

Module Roomy.
(** One array of strings with a spare cell, one array of columns with
    three, and the map of the labels. *)
Definition heap0 : heap :=
  Heap {[ 1 := ["all"; ""] ]}
       {[ 2 := [Column.Build "AGE" "date" ".metadata.creationTimestamp";
                Column.zero; Column.zero; Column.zero] ]}
       {[ 0 := {[ "app" := "demo" ]} ]}.

(** The categories of the composite are [array[0:1]] with capacity 2,
    the printer columns of the version [array[0:1]] with capacity 4. *)
Definition definition : CompositeResourceDefinition.t :=
  Demo.definition (Demo.names "Thing" "things" (Slice 1 0 1 2))
                  (Some (Demo.names "ThingClaim" "thingclaims" nilSlice))
                  [Demo.version "v1" true true None (Slice 2 0 1 4)].

(** A definition without versions. *)
Definition empty : CompositeResourceDefinition.t :=
  Demo.definition (Demo.names "Thing" "things" nilSlice)
                  (Some (Demo.names "ThingClaim" "thingclaims" nilSlice))
                  [].

Definition unordered : CustomResourceDefinitionStatus :=
  {| Conditions := [Demo.condition "Established" "True";
                    Demo.condition "NamesAccepted" "True"] |}.

Definition reordered : CustomResourceDefinitionStatus :=
  {| Conditions := [Demo.condition "NamesAccepted" "True";
                    Demo.condition "Established" "True"] |}.
End Roomy.

(** ** The appends of a call *)

(** The header of a slice after [k] elements were appended to it in
    place. *)
Definition extended (k : nat) (s : slice) : slice :=
  Slice (array s) (offset s) (len s + k) (cap s).

(** Appends of [k] elements to the slices of a list, in their order, stay
    clear of each other: an append writes no cell that a later slice
    shows, and a later append writes no cell of a slice extended in place
    before. *)
Fixpoint clear (k : nat) (ss : list slice) : Prop :=
  match ss with
  | [] => True
  | s :: rest =>
      Forall (λ t, apart k s t ∧ (len s + k ≤ cap s → apart k t (extended k s))) rest ∧
      clear k rest
  end.

(** The appends of the loop over the versions, one after the other: the
    slices they return and the arrays they leave. *)
Fixpoint appended `{Externals} (printerColumns : list Column.t)
    (vrs : list CompositeResourceDefinitionVersion.t)
    (a : gmap loc (list Column.t)) : list slice * gmap loc (list Column.t) :=
  match vrs with
  | [] => ([], a)
  | vr :: rest =>
      let s := CompositeResourceDefinitionVersion.AdditionalPrinterColumns vr in
      let ca := append Column.zero
                  (growslice (cap s) (len s + length printerColumns))
                  s printerColumns a in
      let rest' := appended printerColumns rest ca.2 in
      (ca.1 :: rest'.1, rest'.2)
  end.

(** The conditions of a list that are of the type "Established". *)
Definition establishedOnly (conditions : list Condition.t) : list Condition.t :=
  filter (λ c, Condition.Type_ c = Established) conditions.

(** * Properties *)

Section pure_properties.
Context `{Externals}.

Import CompositeResourceDefinition CompositeResourceDefinitionSpec.

Lemma Sprintf_conflict n :
  Sprintf strconv_Quote errFmtConflictingClaimName n =
  strconv_Quote n +:+ " conflicts with composite resource name".
Proof. reflexivity. Qed.

Lemma length_append_string (a b : string) :
  String.length (a +:+ b) = String.length a + String.length b.
Proof. induction a as [|c a IH]; simpl; [done | by rewrite IH]. Qed.

Lemma conflict_not_missing n :
  errors_Errorf errFmtConflictingClaimName n ≠ errors_New errMissingClaimNames.
Proof.
  unfold errors_Errorf. rewrite Sprintf_conflict. intros [= Heq].
  apply (f_equal String.length) in Heq.
  rewrite length_append_string in Heq. simpl in Heq. lia.
Qed.

(** The nested conditionals of the code pick the first violated rule. *)
Lemma validateClaimNames_validate d :
  validateClaimNames d = failureError <$> validate d.
Proof.
  unfold validateClaimNames, validate, conflictRules.
  destruct (ClaimNames (Spec d)) as [claim|]; [|done].
  set (composite := Names (Spec d)).
  destruct (decide (Names.Kind claim = Names.Kind composite)) as [Hk|Hk].
  { cbn. by rewrite bool_decide_eq_true_2. }
  destruct (decide (Names.Plural claim = Names.Plural composite)) as [Hp|Hp].
  { cbn. rewrite (bool_decide_eq_false_2 _ Hk). cbn.
    by rewrite bool_decide_eq_true_2. }
  destruct (decide (Names.Singular claim ≠ "" ∧
                    Names.Singular claim = Names.Singular composite)) as [[Hs1 Hs2]|Hs].
  { cbn. rewrite (bool_decide_eq_false_2 _ Hk). cbn.
    rewrite (bool_decide_eq_false_2 _ Hp). cbn.
    rewrite (bool_decide_eq_false_2 _ Hs1), (bool_decide_eq_true_2 _ Hs2). done. }
  assert (negb (bool_decide (Names.Singular claim = "")) &&
          bool_decide (Names.Singular claim = Names.Singular composite) = false) as Hsb.
  { apply andb_false_iff. rewrite negb_false_iff.
    destruct (decide (Names.Singular claim = "")) as [He|He].
    - left. by apply bool_decide_eq_true_2.
    - right. apply bool_decide_eq_false_2. tauto. }
  destruct (decide (Names.ListKind claim ≠ "" ∧
                    Names.ListKind claim = Names.ListKind composite)) as [[Hl1 Hl2]|Hl].
  { cbn. rewrite (bool_decide_eq_false_2 _ Hk). cbn.
    rewrite (bool_decide_eq_false_2 _ Hp). cbn. rewrite Hsb. cbn.
    rewrite (bool_decide_eq_false_2 _ Hl1), (bool_decide_eq_true_2 _ Hl2). done. }
  assert (negb (bool_decide (Names.ListKind claim = "")) &&
          bool_decide (Names.ListKind claim = Names.ListKind composite) = false) as Hlb.
  { apply andb_false_iff. rewrite negb_false_iff.
    destruct (decide (Names.ListKind claim = "")) as [He|He].
    - left. by apply bool_decide_eq_true_2.
    - right. apply bool_decide_eq_false_2. tauto. }
  cbn. rewrite (bool_decide_eq_false_2 _ Hk). cbn.
  rewrite (bool_decide_eq_false_2 _ Hp). cbn. rewrite Hsb. cbn. rewrite Hlb. done.
Qed.

Lemma isEstablished_none (conditions : list Condition.t) :
  Forall (λ c, Condition.Type_ c ≠ Established) conditions →
  isEstablished conditions = false.
Proof.
  induction 1 as [|c rest Hc _ IH]; simpl; [done|].
  by destruct (decide (Condition.Type_ c = Established)).
Qed.

Lemma isEstablished_first (before after : list Condition.t) c :
  Forall (λ c', Condition.Type_ c' ≠ Established) before →
  Condition.Type_ c = Established →
  isEstablished (before ++ c :: after) =
  bool_decide (Condition.Status c = ConditionTrue).
Proof.
  intros Hbefore Hc. induction Hbefore as [|c' rest Hc' _ IH]; simpl.
  - by destruct (decide (Condition.Type_ c = Established)).
  - by destruct (decide (Condition.Type_ c' = Established)).
Qed.

(** C3. [IsEstablished] answers by the first condition whose type is
    "Established": true when its status is "True", false when it is
    anything else; it is false when no condition has that type, and so
    for the empty list. *)
Theorem IsEstablished_first_established (s : CustomResourceDefinitionStatus) :
  (Conditions s = [] → IsEstablished s = false) ∧
  (Forall (λ c, Condition.Type_ c ≠ Established) (Conditions s) →
   IsEstablished s = false) ∧
  (∀ before c after,
     Conditions s = before ++ c :: after →
     Forall (λ c', Condition.Type_ c' ≠ Established) before →
     Condition.Type_ c = Established →
     (Condition.Status c = ConditionTrue → IsEstablished s = true) ∧
     (Condition.Status c = ConditionFalse ∨ Condition.Status c = ConditionUnknown →
      IsEstablished s = false) ∧
     (Condition.Status c ≠ ConditionTrue → IsEstablished s = false)).
Proof.
  unfold IsEstablished. split; [|split].
  - by intros ->.
  - apply isEstablished_none.
  - intros before c after -> Hbefore Hc.
    rewrite (isEstablished_first _ _ _ Hbefore Hc). split_and!; intros Hs.
    + by apply bool_decide_eq_true_2.
    + apply bool_decide_eq_false_2. by destruct Hs as [-> | ->].
    + by apply bool_decide_eq_false_2.
Qed.



(** C5. The code returns the error of the first violated rule of the
    specification, in its order: the missing-names error exactly when
    there is no claim name set, then kind, plural, non-empty singular,
    non-empty list kind, and no error when no rule is violated. A call
    that fails validation leaves the heap as it was. *)
Theorem validateClaimNames_first_violation d :
  validateClaimNames d = failureError <$> validate d ∧
  (validateClaimNames d = Some (errors_New errMissingClaimNames) ↔
   ClaimNames (Spec d) = None) ∧
  (∀ h e, validateClaimNames d = Some e →
     ForCompositeResourceClaim d h =
     (Return (None, Some (errors_Wrap e errInvalidClaimNames)), h)).
Proof.
  split_and!.
  - apply validateClaimNames_validate.
  - rewrite validateClaimNames_validate. unfold validate.
    destruct (ClaimNames (Spec d)) as [claim|]; [|done].
    split; [|done]. destruct (list_find _ _) as [[i [[f v] b]]|]; [|done].
    intros Heq. exfalso. apply (conflict_not_missing v).
    change (Some (errors_Errorf errFmtConflictingClaimName v) =
            Some (errors_New errMissingClaimNames)) in Heq.
    congruence.
  - intros h e He. unfold ForCompositeResourceClaim. by rewrite He.
Qed.

(** C9. [getSpecProps] returns the nil map and no error for an absent
    schema; for a schema that decodes it returns the properties at
    "properties.spec.properties", the nil map when that path is absent,
    and no error; it returns an error exactly when the schema is present
    and does not decode, and then the error wraps the decoder's. *)
Theorem getSpecProps_cases (v : option CompositeResourceValidation) :
  (v = None → getSpecProps v = (None, None)) ∧
  (∀ val s,
     v = Some val → json_Unmarshal (Raw (RawOpenAPIV3Schema val)) = inl s →
     getSpecProps v = (specProperties s, None) ∧
     (specProperties s = None → getSpecProps v = (None, None))) ∧
  (∀ e, (getSpecProps v).2 = Some e ↔
     ∃ val cause,
       v = Some val ∧
       json_Unmarshal (Raw (RawOpenAPIV3Schema val)) = inr cause ∧
       e = errors_Wrap cause errParseValidation).
Proof.
  unfold getSpecProps, specProperties. split_and!.
  - by intros ->.
  - intros val s -> ->.
    destruct (Properties s) as [props|]; simpl; [|done].
    destruct (props !! "spec") as [spec|]; simpl; [|done].
    split; [done|]. by intros ->.
  - intros e. destruct v as [val|]; simpl.
    + destruct (json_Unmarshal _) as [s|cause] eqn:Hdec; simpl.
      * split.
        -- by destruct (Properties s ≫= _).
        -- intros (val' & cause & [= <-] & Hdec' & _). congruence.
      * split.
        -- intros [= <-]. eauto.
        -- intros (val' & cause' & [= <-] & Hdec' & ->). congruence.
    + split; [done|]. by intros (? & ? & ? & _).
Qed.
End pure_properties.

Section merge_properties.
Context `{Externals}.


Implicit Types (props layer m : gmap string JSONSchemaProps)
  (versions : list CustomResourceDefinitionVersion.t) (l : list (string * JSONSchemaProps)).

Lemma withProperties_id (s : JSONSchemaProps) m :
  Properties s = Some m → withProperties s m = s.
Proof. destruct s; simpl; by intros ->. Qed.

Lemma withProperties_twice (s : JSONSchemaProps) m m' :
  withProperties (withProperties s m) m' = withProperties s m'.
Proof. reflexivity. Qed.

Lemma withSchema_twice (ver : CustomResourceDefinitionVersion.t) (s s' : JSONSchemaProps) :
  withSchema (withSchema ver s) s' = withSchema ver s'.
Proof. reflexivity. Qed.

Lemma mergeInto_declared props layer key e m :
  props !! key = Some e → Properties e = Some m →
  mergeInto props layer key = <[key := withProperties e (layer ∪ m)]> props.
Proof. unfold mergeInto. by intros -> ->. Qed.

Lemma mergeInto_undeclared props layer key :
  ¬ declares props key → mergeInto props layer key = props.
Proof.
  unfold mergeInto, declares. destruct (props !! key) as [e|]; simpl; [|done].
  destruct (Properties e); [|done]. intros []. eauto.
Qed.

Lemma mergeInto_empty props key : mergeInto props ∅ key = props.
Proof.
  unfold mergeInto. destruct (props !! key) as [e|] eqn:He; [|done].
  destruct (Properties e) as [m|] eqn:Hm; [|done].
  rewrite (left_id_L ∅ (∪)), (withProperties_id _ _ Hm). by apply insert_id.
Qed.

Lemma declares_mergeInto props layer key key' :
  declares props key' → declares (mergeInto props layer key) key'.
Proof.
  unfold declares, mergeInto. intros Hd.
  destruct (props !! key) as [e|] eqn:He; [|done].
  destruct (Properties e) as [m|] eqn:Hm; [|done].
  destruct (decide (key = key')) as [<-|Hne].
  - rewrite lookup_insert_eq. simpl. eauto.
  - by rewrite lookup_insert_ne.
Qed.

(** The properties under a key after a merge: the layer where it is the
    key merged under, over what was there; untouched elsewhere. *)
Lemma under_mergeInto props layer key key' :
  declares props key →
  under (mergeInto props layer key) key' =
  if decide (key = key') then layer ∪ under props key else under props key'.
Proof.
  unfold declares, under, mergeInto. intros [m Hd].
  destruct (props !! key) as [e|] eqn:He; [|done]. simpl in Hd. rewrite Hd.
  case_decide as Hk.
  - subst key'. rewrite lookup_insert_eq. simpl. by rewrite Hd.
  - by rewrite lookup_insert_ne.
Qed.

(** Writing the entries of a list one after the other is the union with
    the map of the list when no key comes twice, in whatever order. *)
Lemma foldl_insert_union l m :
  NoDup l.*1 →
  foldl (λ acc kv, <[kv.1 := kv.2]> acc) m l = list_to_map l ∪ m.
Proof.
  revert m. induction l as [|[k v] l IH]; intros m Hnd; simpl.
  - by rewrite (left_id_L ∅ (∪)).
  - apply NoDup_cons in Hnd as [Hk Hnd]. rewrite IH by done.
    rewrite <-insert_union_l. symmetry. apply insert_union_r.
    by apply not_elem_of_list_to_map_1.
Qed.

Lemma rangeAssign_declared l i key versions ver schema props e m :
  versions !! i = Some (withSchema ver (withProperties schema props)) →
  props !! key = Some e → Properties e = Some m →
  rangeAssign i key l versions =
  Return (<[i := withSchema ver (withProperties schema
            (<[key := withProperties e
                 (foldl (λ acc kv, <[kv.1 := kv.2]> acc) m l)]> props))]> versions).
Proof.
  revert versions props e m. induction l as [|[k v] l IH];
    intros versions props e m Hi He Hm; simpl.
  - rewrite (withProperties_id _ _ Hm), (insert_id _ _ _ He).
    by rewrite list_insert_id.
  - unfold assignProperty. rewrite Hi. simpl. rewrite He, Hm. simpl.
    assert (i < length versions) as Hlt by by eapply lookup_lt_Some.
    rewrite withSchema_twice, withProperties_twice.
    rewrite (IH _ (<[key := withProperties e (<[k := v]> m)]> props)
               (withProperties e (<[k := v]> m)) (<[k := v]> m)
               (list_lookup_insert_eq _ _ _ Hlt) (lookup_insert_eq _ _ _) eq_refl).
    simpl. by rewrite list_insert_insert_eq, insert_insert_eq.
Qed.

Lemma rangeAssign_undeclared l i key versions ver schema props :
  versions !! i = Some (withSchema ver (withProperties schema props)) →
  ¬ declares props key → l ≠ [] →
  rangeAssign i key l versions = Panicked AssignmentToEntryInNilMap.
Proof.
  intros Hi Hd Hl. destruct l as [|[k v] l]; [done|]. simpl.
  unfold assignProperty. rewrite Hi. simpl. unfold declares in Hd.
  destruct (props !! key) as [e|]; [|done]. simpl in Hd.
  destruct (Properties e); [|done]. destruct Hd. eauto.
Qed.

(** The loop over a layer is [mergeInto], or the panic of a write to a
    nil map when the layer has an entry and the object is not there. *)
Lemma rangeAssign_mergeInto layer i key versions ver schema props :
  versions !! i = Some (withSchema ver (withProperties schema props)) →
  rangeAssign i key (map_to_list layer) versions =
  if decide (declares props key ∨ layer = ∅) then
    Return (<[i := withSchema ver (withProperties schema
                     (mergeInto props layer key))]> versions)
  else Panicked AssignmentToEntryInNilMap.
Proof.
  intros Hi. destruct (decide (declares props key)) as [Hd|Hd].
  - rewrite decide_True by auto. destruct Hd as [m Hd].
    destruct (props !! key) as [e|] eqn:He; [|done]. simpl in Hd.
    rewrite (rangeAssign_declared _ _ _ _ _ _ _ _ _ Hi He Hd).
    rewrite foldl_insert_union by apply NoDup_fst_map_to_list.
    by rewrite list_to_map_to_list, (mergeInto_declared _ _ _ _ _ He Hd).
  - destruct (decide (layer = ∅)) as [->|Hl].
    + rewrite decide_True by auto. rewrite map_to_list_empty. simpl.
      by rewrite mergeInto_empty, list_insert_id.
    + rewrite decide_False by tauto.
      eapply rangeAssign_undeclared; [done|done|].
      by rewrite map_to_list_empty_iff.
Qed.
End merge_properties.

Section loop_properties.
Context `{Externals}.


Implicit Types (versions : list CustomResourceDefinitionVersion.t)
  (vrs : list CompositeResourceDefinitionVersion.t) (h : heap).

(** The three loops over the layers of one version. *)
Lemma layers_projected i vr cols p specProps versions :
  i < length versions →
  let result :=
    versions ← rangeAssign i "spec" (map_to_list (default ∅ p))
                 (<[i := newVersion vr cols]> versions);
    versions ← rangeAssign i "spec" (map_to_list specProps) versions;
    rangeAssign i "status" (map_to_list CompositeResourceStatusProps) versions in
  result = Return (<[i := projected vr cols p specProps]> versions) ∨
  (result = Panicked AssignmentToEntryInNilMap ∧ ¬ baseDeclared).
Proof.
  intros Hi. cbv zeta.
  pose (schema := {| Type_ := "object"; Description := "";
                     Properties := Some BaseProps |}).
  assert (<[i := newVersion vr cols]> versions !! i =
          Some (withSchema (newVersion vr cols) (withProperties schema BaseProps)))
    as Hnew by by apply list_lookup_insert_eq.
  rewrite (rangeAssign_mergeInto _ _ _ _ _ _ _ Hnew).
  case_decide as H1; simpl; cycle 1.
  { right. split; [done|]. intros [Hd _]. tauto. }
  rewrite list_insert_insert_eq.
  erewrite rangeAssign_mergeInto; cycle 1.
  { apply list_lookup_insert_eq. done. }
  case_decide as H2; simpl; cycle 1.
  { right. split; [done|]. intros [Hd _]. apply H2. left.
    by apply declares_mergeInto. }
  rewrite list_insert_insert_eq.
  erewrite rangeAssign_mergeInto; cycle 1.
  { apply list_lookup_insert_eq. done. }
  case_decide as H3; simpl; cycle 1.
  { right. split; [done|]. intros [_ Hd]. apply H3. left.
    by do 2 apply declares_mergeInto. }
  left. by rewrite list_insert_insert_eq.
Qed.

Lemma layers_projected_declared i vr cols p specProps versions :
  baseDeclared → i < length versions →
  (versions ← rangeAssign i "spec" (map_to_list (default ∅ p))
                (<[i := newVersion vr cols]> versions);
   versions ← rangeAssign i "spec" (map_to_list specProps) versions;
   rangeAssign i "status" (map_to_list CompositeResourceStatusProps) versions) =
  Return (<[i := projected vr cols p specProps]> versions).
Proof.
  intros Hb Hi. by destruct (layers_projected i vr cols p specProps versions Hi)
    as [?|[_ ?]].
Qed.

(** One iteration of the loop. *)
Lemma forVersions_cons printerColumns specProps i vr rest versions h :
  forVersions printerColumns specProps i (vr :: rest) versions h =
  let cols := CompositeResourceDefinitionVersion.AdditionalPrinterColumns vr in
  let ca := append Column.zero
              (growslice (cap cols) (len cols + length printerColumns))
              cols printerColumns (columns h) in
  let h1 := Heap (strings h) ca.2 (maps h) in
  if decide (i < length versions) then
    match getSpecProps (CompositeResourceDefinitionVersion.Schema vr) with
    | (_, Some err) => (Return (inr (errors_Wrap err errGetSpecProps)), h1)
    | (p, None) =>
        match
          versions ← rangeAssign i "spec" (map_to_list (default ∅ p))
                       (<[i := newVersion vr ca.1]> versions);
          versions ← rangeAssign i "spec" (map_to_list specProps) versions;
          rangeAssign i "status" (map_to_list CompositeResourceStatusProps) versions
        with
        | Return versions' => forVersions printerColumns specProps (S i) rest versions' h1
        | Panicked q => (Panicked q, h1)
        end
    end
  else (Panicked IndexOutOfRange, h1).
Proof.
  cbv zeta. cbn [forVersions]. unfold mbind at 1, M_bind, appendColumns.
  destruct (append _ _ _ _ _) as [c a]. cbn [fst snd].
  unfold mbind at 1, M_bind, lift, assignIndex.
  case_decide; [|done].
  destruct (getSpecProps _) as [p [err|]]; [done|].
  unfold mbind at 1, M_bind.
  destruct (rangeAssign i "spec" (map_to_list (default ∅ p)) _) as [v1|q]; [|done].
  cbn [mbind outcome_bind]. unfold mbind at 1, M_bind.
  destruct (rangeAssign i "spec" (map_to_list specProps) v1) as [v2|q]; [|done].
  cbn [mbind outcome_bind]. unfold mbind at 1, M_bind.
  by destruct (rangeAssign i "status" _ v2) as [v3|q].
Qed.

(** What the loop returns: the projections of the versions in their
    order when every schema parses, the wrapped error of the first
    schema that does not, and a panic only for a write under an object
    the base schema lacks. *)
Lemma forVersions_result printerColumns specProps vrs i versions h :
  i + length vrs = length versions →
  match (forVersions printerColumns specProps i vrs versions h).1 with
  | Return (inl versions') =>
      length versions' = length versions ∧
      take i versions' = take i versions ∧
      Forall2 (λ vr v, ∃ cols p,
                 getSpecProps (CompositeResourceDefinitionVersion.Schema vr) = (p, None) ∧
                 v = projected vr cols p specProps)
              vrs (drop i versions')
  | Return (inr err) =>
      ∃ before vr after cause,
        vrs = before ++ vr :: after ∧
        Forall (λ vr', (getSpecProps
                          (CompositeResourceDefinitionVersion.Schema vr')).2 = None) before ∧
        (getSpecProps (CompositeResourceDefinitionVersion.Schema vr)).2 = Some cause ∧
        err = errors_Wrap cause errGetSpecProps
  | Panicked q => q = AssignmentToEntryInNilMap ∧ ¬ baseDeclared
  end.
Proof.
  revert i versions h. induction vrs as [|vr rest IH]; intros i versions h Hlen.
  - simpl in *. split_and!; [done..|].
    rewrite drop_ge by lia. constructor.
  - rewrite forVersions_cons. cbv zeta. simpl in Hlen.
    rewrite decide_True by lia.
    destruct (getSpecProps _) as [p [cause|]] eqn:Hp.
    { simpl. exists [], vr, rest, cause. by rewrite Hp. }
    set (cols := (append _ _ _ _ _).1). set (h1 := Heap _ _ _).
    destruct (layers_projected i vr cols p specProps versions) as [->|[-> Hb]];
      [lia| |done].
    specialize (IH (S i) (<[i := projected vr cols p specProps]> versions) h1).
    rewrite length_insert in IH. specialize (IH ltac:(lia)).
    destruct (forVersions _ _ _ _ _ _).1 as [[versions'|err]|q]; [| |done].
    + destruct IH as (Hl & Htake & Hall).
      assert (versions' !! i = Some (projected vr cols p specProps)) as Hi.
      { rewrite <-(lookup_take_lt _ (S i)) by lia. rewrite Htake.
        rewrite lookup_take_lt by lia. apply list_lookup_insert_eq. lia. }
      split_and!; [done| |].
      * rewrite <-(take_insert_ge versions i i (projected vr cols p specProps)) by lia.
        apply (f_equal (take i)) in Htake.
        rewrite !take_take in Htake.
        by rewrite !(Nat.min_l i (S i)) in Htake by lia.
      * rewrite (drop_S _ _ _ Hi). constructor; [|done]. eauto.
    + destruct IH as (before & vr' & after & cause & -> & Hbefore & Hcause & ->).
      exists (vr :: before), vr', after, cause. split_and!; [done| |done..].
      constructor; [by rewrite Hp|done].
Qed.

Import CompositeResourceDefinition CompositeResourceDefinitionSpec.

Lemma projected_projects vr cols p specProps :
  getSpecProps (CompositeResourceDefinitionVersion.Schema vr) = (p, None) →
  projects specProps vr (projected vr cols p specProps).
Proof. intros Hp. unfold projects. simpl. split_and!; eauto. Qed.

(** What the common part of the two functions returns. *)
Lemma derive_result xrd crd category printerColumns specProps h :
  length (CustomResourceDefinitionSpec.Versions (CustomResourceDefinition.Spec crd)) =
  length (Versions (Spec xrd)) →
  match (derive xrd crd category printerColumns specProps h).1 with
  | Return (Some out, None) =>
      CustomResourceDefinition.Meta out = CustomResourceDefinition.Meta crd ∧
      CustomResourceDefinitionSpec.Group (CustomResourceDefinition.Spec out) =
        CustomResourceDefinitionSpec.Group (CustomResourceDefinition.Spec crd) ∧
      CustomResourceDefinitionSpec.Scope (CustomResourceDefinition.Spec out) =
        CustomResourceDefinitionSpec.Scope (CustomResourceDefinition.Spec crd) ∧
      (∃ categories,
         CustomResourceDefinitionSpec.Names (CustomResourceDefinition.Spec out) =
         withCategories
           (CustomResourceDefinitionSpec.Names (CustomResourceDefinition.Spec crd))
           categories) ∧
      Forall2 (projects specProps) (Versions (Spec xrd))
        (CustomResourceDefinitionSpec.Versions (CustomResourceDefinition.Spec out))
  | Return (None, Some err) =>
      ∃ before vr after cause,
        Versions (Spec xrd) = before ++ vr :: after ∧
        parses before ∧
        (getSpecProps (CompositeResourceDefinitionVersion.Schema vr)).2 = Some cause ∧
        err = errors_Wrap cause errGetSpecProps
  | Return _ => False
  | Panicked q => q = AssignmentToEntryInNilMap ∧ ¬ baseDeclared
  end.
Proof.
  intros Hlen. unfold derive, mbind at 1, M_bind, appendStrings.
  destruct (append _ _ _ _ _) as [categories a].
  unfold mbind at 1, M_bind. cbn [CustomResourceDefinition.Spec setCategories
    CustomResourceDefinitionSpec.Versions].
  set (h1 := Heap _ _ _).
  pose proof (forVersions_result printerColumns specProps (Versions (Spec xrd))
                0 _ h1 (eq_sym Hlen)) as Hloop.
  destruct (forVersions _ _ _ _ _ _) as [[[versions'|err]|q] h2]; simpl in *.
  - destruct Hloop as (_ & _ & Hall). rewrite drop_0 in Hall.
    split_and!; [done..|by eexists|].
    eapply Forall2_impl; [exact Hall|].
    intros vr v (cols & p & Hp & ->). by apply projected_projects.
  - done.
  - done.
Qed.

Lemma parses_first_failure vrs before vr after cause :
  parses vrs → vrs = before ++ vr :: after →
  (getSpecProps (CompositeResourceDefinitionVersion.Schema vr)).2 = Some cause → False.
Proof.
  intros Hp -> Hc. apply Forall_app in Hp as [_ Hp].
  apply Forall_cons in Hp as [Hp _]. congruence.
Qed.

(** With the two objects in the base schema and schemas that parse, the
    common part returns a definition. *)
Lemma derive_total xrd crd category printerColumns specProps h :
  baseDeclared → parses (Versions (Spec xrd)) →
  length (CustomResourceDefinitionSpec.Versions (CustomResourceDefinition.Spec crd)) =
  length (Versions (Spec xrd)) →
  ∃ out, (derive xrd crd category printerColumns specProps h).1 = Return (Some out, None).
Proof.
  intros Hb Hp Hlen.
  pose proof (derive_result xrd crd category printerColumns specProps h Hlen) as Hr.
  destruct (derive _ _ _ _ _ _).1 as [[[out|] [err|]]|q]; try done.
  - by eexists.
  - destruct Hr as (before & vr & after & cause & Hv & _ & Hc & _).
    destruct (parses_first_failure _ _ _ _ _ Hp Hv Hc).
  - by destruct Hr as [_ []].
Qed.

(** The first schema that does not parse, when there is one. *)
Lemma first_failure vrs :
  ¬ parses vrs →
  ∃ before vr after cause,
    vrs = before ++ vr :: after ∧ parses before ∧
    (getSpecProps (CompositeResourceDefinitionVersion.Schema vr)).2 = Some cause.
Proof.
  induction vrs as [|vr rest IH]; intros Hn.
  - destruct Hn. constructor.
  - destruct (getSpecProps (CompositeResourceDefinitionVersion.Schema vr)).2
      as [cause|] eqn:Hc.
    + exists [], vr, rest, cause. split_and!; [done|constructor|done].
    + destruct IH as (before & vr' & after & cause & -> & Hb & Hc').
      { intros Hr. apply Hn. by constructor. }
      exists (vr :: before), vr', after, cause.
      split_and!; [done|by constructor|done].
Qed.

Lemma first_failure_unique vrs before vr after cause before' vr' after' cause' :
  vrs = before ++ vr :: after → parses before →
  (getSpecProps (CompositeResourceDefinitionVersion.Schema vr)).2 = Some cause →
  vrs = before' ++ vr' :: after' → parses before' →
  (getSpecProps (CompositeResourceDefinitionVersion.Schema vr')).2 = Some cause' →
  before = before' ∧ vr = vr' ∧ cause = cause'.
Proof.
  intros -> Hb Hc. revert before' Hb. induction before as [|x before IH];
    intros [|y before'] Hb Heq Hb' Hc'; simpl in Heq; injection Heq as -> Heq.
  - subst. split_and!; [done..|congruence].
  - apply Forall_cons in Hb' as [Hy _]. congruence.
  - apply Forall_cons in Hb as [Hx _]. congruence.
  - apply Forall_cons in Hb as [_ Hb]. apply Forall_cons in Hb' as [_ Hb'].
    destruct (IH before' Hb Heq Hb' Hc') as (-> & -> & ->). done.
Qed.

(** With the two objects in the base schema, a schema that does not
    parse ends the common part with the wrapped error of the first. *)
Lemma derive_failure xrd crd category printerColumns specProps h before vr after cause :
  baseDeclared →
  length (CustomResourceDefinitionSpec.Versions (CustomResourceDefinition.Spec crd)) =
  length (Versions (Spec xrd)) →
  Versions (Spec xrd) = before ++ vr :: after → parses before →
  (getSpecProps (CompositeResourceDefinitionVersion.Schema vr)).2 = Some cause →
  (derive xrd crd category printerColumns specProps h).1 =
  Return (None, Some (errors_Wrap cause errGetSpecProps)).
Proof.
  intros Hb Hlen Hv Hbefore Hc.
  pose proof (derive_result xrd crd category printerColumns specProps h Hlen) as Hr.
  destruct (derive _ _ _ _ _ _).1 as [[[out|] [err|]]|q]; try done.
  - destruct Hr as (_ & _ & _ & _ & Hall).
    rewrite Hv in Hall. apply Forall2_app_inv_l in Hall as (? & ? & _ & Hall & _).
    apply Forall2_cons_inv_l in Hall as (v & ? & (_ & _ & _ & _ & p & Hp & _) & _).
    rewrite Hp in Hc. done.
  - destruct Hr as (before' & vr' & after' & cause' & Hv' & Hb' & Hc' & ->).
    destruct (first_failure_unique _ _ _ _ _ _ _ _ _ Hv Hbefore Hc Hv' Hb' Hc')
      as (_ & _ & ->). done.
  - by destruct Hr as [_ []].
Qed.
End loop_properties.

Section entry_points.
Context `{Externals}.

Import CompositeResourceDefinition CompositeResourceDefinitionSpec.

Implicit Types (xrd : CompositeResourceDefinition.t) (h : heap).

Lemma mergeInto_lookup_ne (props layer : gmap string JSONSchemaProps) key key' :
  key ≠ key' → mergeInto props layer key !! key' = props !! key'.
Proof.
  intros Hne. unfold mergeInto. destruct (props !! key) as [e|]; [|done].
  destruct (Properties e); [|done]. by rewrite lookup_insert_ne.
Qed.

Lemma under_layered_spec p specProps :
  baseDeclared →
  under (layered p specProps) "spec" =
  specProps ∪ (default ∅ p ∪ under BaseProps "spec").
Proof.
  intros [Hspec Hstatus]. unfold layered.
  rewrite under_mergeInto by by do 2 apply declares_mergeInto.
  rewrite decide_False by done.
  rewrite under_mergeInto by by apply declares_mergeInto.
  rewrite decide_True by done.
  rewrite under_mergeInto by done. by rewrite decide_True.
Qed.

Lemma under_layered_status p specProps :
  baseDeclared →
  under (layered p specProps) "status" =
  CompositeResourceStatusProps ∪ under BaseProps "status".
Proof.
  intros [Hspec Hstatus]. unfold layered.
  rewrite under_mergeInto by by do 2 apply declares_mergeInto.
  rewrite decide_True by done.
  rewrite under_mergeInto by by apply declares_mergeInto.
  rewrite decide_False by done.
  rewrite under_mergeInto by done. by rewrite decide_False.
Qed.

Lemma layered_lookup_ne p specProps key :
  key ≠ "spec" → key ≠ "status" → layered p specProps !! key = BaseProps !! key.
Proof.
  intros H1 H2. unfold layered. by rewrite !mergeInto_lookup_ne.
Qed.

Lemma length_newDefinition xrd scope name names :
  length (CustomResourceDefinitionSpec.Versions
            (CustomResourceDefinition.Spec (newDefinition xrd scope name names))) =
  length (Versions (Spec xrd)).
Proof. simpl. apply length_replicate. Qed.

Lemma validateClaimNames_present xrd :
  validateClaimNames xrd = None → is_Some (ClaimNames (Spec xrd)).
Proof. unfold validateClaimNames. destruct (ClaimNames (Spec xrd)); [eauto|done]. Qed.

Lemma validateClaimNames_distinct xrd claim :
  ClaimNames (Spec xrd) = Some claim →
  Names.Kind claim ≠ Names.Kind (Names (Spec xrd)) →
  Names.Plural claim ≠ Names.Plural (Names (Spec xrd)) →
  (Names.Singular claim ≠ "" →
   Names.Singular claim ≠ Names.Singular (Names (Spec xrd))) →
  (Names.ListKind claim ≠ "" →
   Names.ListKind claim ≠ Names.ListKind (Names (Spec xrd))) →
  validateClaimNames xrd = None.
Proof.
  intros Hc Hk Hp Hs Hl. unfold validateClaimNames. rewrite Hc.
  rewrite !decide_False; [done|tauto..].
Qed.

Lemma ForCompositeResourceClaim_valid xrd claim h :
  validateClaimNames xrd = None → ClaimNames (Spec xrd) = Some claim →
  ForCompositeResourceClaim xrd h =
  derive xrd
    (newDefinition xrd NamespaceScoped
       (Names.Plural claim +:+ "." +:+ Group (Spec xrd)) claim)
    CategoryClaim CompositeResourceClaimPrinterColumns
    CompositeResourceClaimSpecProps h.
Proof. intros Hv Hc. unfold ForCompositeResourceClaim. by rewrite Hv, Hc. Qed.

(** What the claim function returns. *)
Lemma ForCompositeResourceClaim_result xrd h :
  match (ForCompositeResourceClaim xrd h).1 with
  | Return (Some out, None) =>
      validateClaimNames xrd = None ∧
      ∃ claim categories,
        ClaimNames (Spec xrd) = Some claim ∧
        ObjectMeta.Name (CustomResourceDefinition.Meta out) =
          Names.Plural claim +:+ "." +:+ Group (Spec xrd) ∧
        CustomResourceDefinitionSpec.Scope (CustomResourceDefinition.Spec out) =
          NamespaceScoped ∧
        CustomResourceDefinitionSpec.Names (CustomResourceDefinition.Spec out) =
          withCategories claim categories ∧
        Forall2 (projects CompositeResourceClaimSpecProps) (Versions (Spec xrd))
          (CustomResourceDefinitionSpec.Versions (CustomResourceDefinition.Spec out))
  | Return (None, Some err) =>
      (∃ cause, validateClaimNames xrd = Some cause ∧
                err = errors_Wrap cause errInvalidClaimNames) ∨
      (validateClaimNames xrd = None ∧
       ∃ before vr after cause,
         Versions (Spec xrd) = before ++ vr :: after ∧ parses before ∧
         (getSpecProps (CompositeResourceDefinitionVersion.Schema vr)).2 = Some cause ∧
         err = errors_Wrap cause errGetSpecProps)
  | Return _ => False
  | Panicked q => q = AssignmentToEntryInNilMap ∧ ¬ baseDeclared
  end.
Proof.
  destruct (validateClaimNames xrd) as [cause|] eqn:Hv.
  { unfold ForCompositeResourceClaim. rewrite Hv. simpl. left. eauto. }
  destruct (validateClaimNames_present _ Hv) as [claim Hc].
  rewrite (ForCompositeResourceClaim_valid _ _ _ Hv Hc).
  pose proof (derive_result xrd _ CategoryClaim CompositeResourceClaimPrinterColumns
                CompositeResourceClaimSpecProps h
                (length_newDefinition xrd NamespaceScoped
                   (Names.Plural claim +:+ "." +:+ Group (Spec xrd)) claim)) as Hr.
  destruct (derive _ _ _ _ _ _).1 as [[[out|] [err|]]|q]; try done.
  - destruct Hr as (Hm & _ & Hs & [categories Hn] & Hall).
    split; [done|]. exists claim, categories. split_and!; [done| |done..].
    by rewrite Hm.
  - right. done.
Qed.

(** What the composite function returns. *)
Lemma ForCompositeResource_result xrd h :
  match (ForCompositeResource xrd h).1 with
  | Return (Some out, None) =>
      Forall2 (projects CompositeResourceSpecProps) (Versions (Spec xrd))
        (CustomResourceDefinitionSpec.Versions (CustomResourceDefinition.Spec out))
  | Return (None, Some err) =>
      ∃ before vr after cause,
        Versions (Spec xrd) = before ++ vr :: after ∧ parses before ∧
        (getSpecProps (CompositeResourceDefinitionVersion.Schema vr)).2 = Some cause ∧
        err = errors_Wrap cause errGetSpecProps
  | Return _ => False
  | Panicked q => q = AssignmentToEntryInNilMap ∧ ¬ baseDeclared
  end.
Proof.
  unfold ForCompositeResource.
  pose proof (derive_result xrd _ CategoryComposite CompositeResourcePrinterColumns
                CompositeResourceSpecProps h
                (length_newDefinition xrd ClusterScoped
                   (ObjectMeta.Name (Meta xrd)) (Names (Spec xrd)))) as Hr.
  destruct (derive _ _ _ _ _ _).1 as [[[out|] [err|]]|q]; try done.
  by destruct Hr as (_ & _ & _ & _ & Hall).
Qed.
End entry_points.

Section slice_properties.
Context {A : Type} (zero : A).
Implicit Types (a : gmap loc (list A)) (s t : slice) (xs arr : list A).

Lemma overwrite_length arr i xs :
  i + length xs ≤ length arr →
  length (take i arr ++ xs ++ drop (i + length xs) arr) = length arr.
Proof. intros Hi. rewrite !length_app, length_take, length_drop. lia. Qed.

Lemma overwrite_nothing arr i : take i arr ++ [] ++ drop (i + 0) arr = arr.
Proof. rewrite Nat.add_0_r. simpl. apply take_drop. Qed.

(** A window of an array that the overwritten cells do not meet. *)
Lemma overwrite_window arr i xs o n :
  i + length xs ≤ length arr →
  n = 0 ∨ o + n ≤ i ∨ i + length xs ≤ o →
  take n (drop o (take i arr ++ xs ++ drop (i + length xs) arr)) =
  take n (drop o arr).
Proof.
  intros Hi Hw. apply list_eq. intros j. rewrite !lookup_take.
  case_decide as Hj; [|done]. rewrite !lookup_drop.
  destruct Hw as [->|[Hw|Hw]]; [lia| |].
  - rewrite lookup_app_l by (rewrite length_take; lia).
    apply lookup_take_lt. lia.
  - rewrite lookup_app_r by (rewrite length_take; lia).
    rewrite length_take, Nat.min_l by lia.
    rewrite lookup_app_r by lia. rewrite lookup_drop. f_equal. lia.
Qed.

Lemma elements_store a l i xs t :
  i + length xs ≤ length (default [] (a !! l)) →
  array t ≠ l ∨ len t = 0 ∨ offset t + len t ≤ i ∨ i + length xs ≤ offset t →
  elements (store a l i xs) t = elements a t.
Proof.
  intros Hi Ht. unfold elements, store.
  destruct (decide (l = array t)) as [->|Hne]; [|by rewrite lookup_alter_ne].
  rewrite lookup_alter_eq. destruct (a !! array t) as [arr|]; [|done]. simpl in *.
  apply overwrite_window; [done|]. destruct Ht as [?|?]; [done|tauto].
Qed.

Lemma store_length a l i xs l' :
  i + length xs ≤ length (default [] (a !! l)) →
  length (default [] (store a l i xs !! l')) = length (default [] (a !! l')).
Proof.
  intros Hi. unfold store.
  destruct (decide (l = l')) as [->|Hne]; [|by rewrite lookup_alter_ne].
  rewrite lookup_alter_eq. destruct (a !! l') as [arr|]; [|done]. simpl in *.
  by apply overwrite_length.
Qed.

Lemma store_nothing a l i : store a l i [] = a.
Proof.
  unfold store. apply map_eq. intros l'.
  destruct (decide (l = l')) as [->|Hne]; [|by rewrite lookup_alter_ne].
  rewrite lookup_alter_eq. destruct (a !! l') as [arr|]; [|done]. simpl.
  by rewrite overwrite_nothing.
Qed.

(** [append] changes nothing that a well-formed slice shows when the
    cells it writes are apart from it. *)
Lemma append_frame slack s xs a t :
  wf a s → wf a t → apart (length xs) s t →
  elements (append zero slack s xs a).2 t = elements a t ∧
  wf (append zero slack s xs a).2 t.
Proof.
  intros [Hs1 Hs2] [Ht1 Ht2] Hap. unfold append. case_decide as Hcap; simpl.
  - destruct (decide (length xs = 0)) as [Hxs|Hxs].
    { apply nil_length_inv in Hxs as ->. by rewrite store_nothing. }
    assert (offset s + len s + length xs ≤ length (default [] (a !! array s)))
      as Hfit by (destruct Hs2; lia).
    split.
    + apply elements_store; [done|]. unfold apart in Hap.
      destruct Hap as [?|[?|[?|[?|[?|?]]]]]; [lia|lia|auto|auto|auto|auto].
    + split; [done|]. by rewrite store_length.
  - pose proof (is_fresh (dom a)) as Hfresh. apply not_elem_of_dom in Hfresh.
    destruct (decide (array t = fresh (dom a))) as [Heq|Hne].
    + assert (cap t = 0) as Hc.
      { destruct Ht2 as [?|Ht2]; [done|]. rewrite Heq, Hfresh in Ht2.
        simpl in Ht2. lia. }
      assert (len t = 0) as Hl by lia.
      split; [unfold elements; by rewrite Hl|]. split; [done|by left].
    + unfold elements, wf. rewrite lookup_insert_ne by done. done.
Qed.

Lemma elements_length a s : wf a s → length (elements a s) = len s.
Proof.
  intros [H1 H2]. unfold elements. rewrite length_take, length_drop.
  destruct H2; lia.
Qed.

(** The slice [append] returns shows the old elements and the new. *)
Lemma elements_append slack s xs a :
  wf a s →
  elements (append zero slack s xs a).2 (append zero slack s xs a).1 =
  elements a s ++ xs.
Proof.
  intros Hwf. pose proof (elements_length _ _ Hwf) as Hlen.
  destruct Hwf as [Hs1 Hs2]. unfold append. case_decide as Hcap; simpl.
  - destruct (decide (length xs = 0)) as [Hxs|Hxs].
    { apply nil_length_inv in Hxs as ->. rewrite store_nothing.
      unfold elements. simpl. by rewrite Nat.add_0_r, app_nil_r. }
    assert (offset s + len s + length xs ≤ length (default [] (a !! array s)))
      as Hfit by (destruct Hs2; lia).
    unfold elements, store in *. simpl. rewrite lookup_alter_eq.
    destruct (a !! array s) as [arr|]; simpl in *; [|lia].
    rewrite drop_app_le by (rewrite length_take; lia).
    rewrite take_app_ge by (rewrite length_drop, length_take; lia).
    rewrite length_drop, length_take, Nat.min_l by lia.
    replace (len s + length xs - (offset s + len s - offset s)) with (length xs) by lia.
    rewrite take_app_length. f_equal.
    rewrite take_drop_commute. done.
  - unfold elements at 1. simpl. rewrite lookup_insert_eq. simpl.
    rewrite drop_0, app_assoc. apply take_app_length'.
    rewrite length_app. lia.
Qed.
End slice_properties.

Section heap_properties.
Context `{Externals}.

Import CompositeResourceDefinition CompositeResourceDefinitionSpec.


Implicit Types (versions : list CustomResourceDefinitionVersion.t)
  (vrs : list CompositeResourceDefinitionVersion.t) (h : heap)
  (ss cs : list slice).

(** [append] keeps a list of well-formed slices as they are when the
    cells it writes are apart from each of them. *)
Lemma append_frame_all {A} (zero : A) slack s (xs : list A)
    (a : gmap loc (list A)) ss :
  Forall (wf a) ss → s ∈ ss → Forall (apart (length xs) s) ss →
  Forall (wf (append zero slack s xs a).2) ss ∧
  elements (append zero slack s xs a).2 <$> ss = elements a <$> ss.
Proof.
  intros Hwf Hs Hap.
  assert (wf a s) as Hwfs by by eapply Forall_forall in Hwf.
  assert (Forall (λ t, elements (append zero slack s xs a).2 t = elements a t ∧
                       wf (append zero slack s xs a).2 t) ss) as Hall.
  { apply Forall_forall. intros t Ht. apply append_frame; [done| |].
    - by eapply Forall_forall in Hwf.
    - by eapply Forall_forall in Hap. }
  split.
  - eapply Forall_impl; [exact Hall|]. by intros t [_ ?].
  - apply Forall_fmap_ext. eapply Forall_impl; [exact Hall|]. by intros t [? _].
Qed.

(** The loop writes to the arrays of columns only, and there only
    through the appends. *)
Lemma forVersions_heap printerColumns specProps vrs i versions h cs :
  Forall (wf (columns h)) cs →
  Forall (λ vr, CompositeResourceDefinitionVersion.AdditionalPrinterColumns vr ∈ cs) vrs →
  Forall (λ vr, Forall (apart (length printerColumns)
                          (CompositeResourceDefinitionVersion.AdditionalPrinterColumns vr))
                  cs) vrs →
  strings (forVersions printerColumns specProps i vrs versions h).2 = strings h ∧
  maps (forVersions printerColumns specProps i vrs versions h).2 = maps h ∧
  elements (columns (forVersions printerColumns specProps i vrs versions h).2) <$> cs =
  elements (columns h) <$> cs.
Proof.
  revert i versions h. induction vrs as [|vr rest IH]; intros i versions h Hwf Hin Hap.
  - done.
  - apply Forall_cons in Hin as [Hin Hin']. apply Forall_cons in Hap as [Hap Hap'].
    rewrite forVersions_cons. cbv zeta.
    set (cols := CompositeResourceDefinitionVersion.AdditionalPrinterColumns vr) in *.
    destruct (append_frame_all Column.zero
                (growslice (cap cols) (len cols + length printerColumns))
                cols printerColumns (columns h) cs Hwf Hin Hap) as [Hwf1 Hel1].
    set (ca := append _ _ _ _ _) in *. set (h1 := Heap _ _ _).
    assert (strings h1 = strings h ∧ maps h1 = maps h ∧
            elements (columns h1) <$> cs = elements (columns h) <$> cs) as Hh1 by done.
    case_decide; [|done].
    destruct (getSpecProps _) as [p [err|]]; [done|].
    destruct (_ ≫= _) as [versions'|q]; [|done].
    destruct (IH (S i) versions' h1 Hwf1 Hin' Hap') as (Hs & Hm & Hc).
    rewrite Hs, Hm, Hc. done.
Qed.

(** The common part of the two functions keeps what the slices of [ss]
    and [cs] show, and the maps. *)
Lemma derive_heap xrd crd category printerColumns specProps h ss cs :
  Forall (wf (strings h)) ss →
  Names.Categories (CustomResourceDefinitionSpec.Names
                      (CustomResourceDefinition.Spec crd)) ∈ ss →
  Forall (apart 1 (Names.Categories (CustomResourceDefinitionSpec.Names
                                       (CustomResourceDefinition.Spec crd)))) ss →
  Forall (wf (columns h)) cs →
  Forall (λ vr, CompositeResourceDefinitionVersion.AdditionalPrinterColumns vr ∈ cs)
    (Versions (Spec xrd)) →
  Forall (λ vr, Forall (apart (length printerColumns)
                          (CompositeResourceDefinitionVersion.AdditionalPrinterColumns vr))
                  cs) (Versions (Spec xrd)) →
  elements (strings (derive xrd crd category printerColumns specProps h).2) <$> ss =
    elements (strings h) <$> ss ∧
  elements (columns (derive xrd crd category printerColumns specProps h).2) <$> cs =
    elements (columns h) <$> cs ∧
  maps (derive xrd crd category printerColumns specProps h).2 = maps h.
Proof.
  intros Hwfs Hcat Haps Hwfc Hin Hapc.
  destruct (derive xrd crd category printerColumns specProps h) as [o h'] eqn:Hd.
  cbn [snd]. revert Hd.
  unfold derive, mbind at 1, M_bind, appendStrings.
  set (categories := Names.Categories _) in *.
  destruct (append_frame_all "" (growslice (cap categories) (len categories + 1))
              categories [category] (strings h) ss Hwfs Hcat Haps) as [_ Hel].
  change (length [category]) with 1.
  destruct (append "" _ categories [category] (strings h)) as [c a]. simpl in Hel.
  unfold mbind at 1, M_bind. set (h1 := Heap a (columns h) (maps h)).
  pose proof (forVersions_heap printerColumns specProps (Versions (Spec xrd)) 0
                (CustomResourceDefinitionSpec.Versions
                   (CustomResourceDefinition.Spec (setCategories crd c)))
                h1 cs Hwfc Hin Hapc) as (Hs & Hm & Hc).
  destruct (forVersions _ _ _ _ _ _) as [[[versions'|err]|q] h2]; simpl in *;
    intros [= <- <-]; by rewrite Hs, Hm, Hc.
Qed.

Lemma columnSlices_elem xrd :
  Forall (λ vr, CompositeResourceDefinitionVersion.AdditionalPrinterColumns vr
                ∈ columnSlices xrd) (Versions (Spec xrd)).
Proof.
  apply Forall_forall. intros vr Hvr. unfold columnSlices.
  by apply list_elem_of_fmap_2.
Qed.

Lemma separated_columns categories k xrd :
  separated categories k xrd →
  Forall (λ vr, Forall (apart k
                          (CompositeResourceDefinitionVersion.AdditionalPrinterColumns vr))
                  (columnSlices xrd)) (Versions (Spec xrd)).
Proof. intros [_ Hc]. unfold columnSlices in Hc at 2. by apply Forall_fmap in Hc. Qed.

Lemma contents_eq h h' xrd :
  elements (strings h') <$> stringSlices xrd = elements (strings h) <$> stringSlices xrd →
  elements (columns h') <$> columnSlices xrd = elements (columns h) <$> columnSlices xrd →
  maps h' = maps h →
  contents h' xrd = contents h xrd.
Proof. unfold contents. by intros -> -> ->. Qed.

(** The composite function keeps the contents of a well-formed input
    whose slices are apart from what it appends. *)
Lemma ForCompositeResource_contents xrd h :
  wellFormed h xrd →
  separated (Names.Categories (Names (Spec xrd)))
    (length CompositeResourcePrinterColumns) xrd →
  contents (ForCompositeResource xrd h).2 xrd = contents h xrd.
Proof.
  intros [Hwfs Hwfc] Hsep. unfold ForCompositeResource.
  destruct (derive_heap xrd
              (newDefinition xrd ClusterScoped (ObjectMeta.Name (Meta xrd))
                 (Names (Spec xrd)))
              CategoryComposite CompositeResourcePrinterColumns
              CompositeResourceSpecProps h (stringSlices xrd) (columnSlices xrd))
    as (Hs & Hc & Hm); [done| |by destruct Hsep|done|apply columnSlices_elem
                        |by eapply separated_columns|by apply contents_eq].
  simpl. unfold stringSlices, namesSlices. set_solver.
Qed.

(** So does the claim function. *)
Lemma ForCompositeResourceClaim_contents xrd h :
  wellFormed h xrd →
  (∀ claim, ClaimNames (Spec xrd) = Some claim →
     separated (Names.Categories claim)
       (length CompositeResourceClaimPrinterColumns) xrd) →
  contents (ForCompositeResourceClaim xrd h).2 xrd = contents h xrd.
Proof.
  intros [Hwfs Hwfc] Hsep. unfold ForCompositeResourceClaim.
  destruct (validateClaimNames xrd); [done|].
  destruct (ClaimNames (Spec xrd)) as [claim|] eqn:Hclaim; [|done].
  specialize (Hsep claim eq_refl).
  destruct (derive_heap xrd
              (newDefinition xrd NamespaceScoped
                 (Names.Plural claim +:+ "." +:+ Group (Spec xrd)) claim)
              CategoryClaim CompositeResourceClaimPrinterColumns
              CompositeResourceClaimSpecProps h (stringSlices xrd) (columnSlices xrd))
    as (Hs & Hc & Hm); [done| |by destruct Hsep|done|apply columnSlices_elem
                        |by eapply separated_columns|by apply contents_eq].
  simpl. unfold stringSlices, namesSlices. rewrite Hclaim. set_solver.
Qed.

Lemma forVersions_strings printerColumns specProps vrs i versions h :
  strings (forVersions printerColumns specProps i vrs versions h).2 = strings h.
Proof.
  revert i versions h. induction vrs as [|vr rest IH]; intros i versions h; [done|].
  rewrite forVersions_cons. cbv zeta. case_decide; [|done].
  destruct (getSpecProps _) as [p [err|]]; [done|].
  destruct (_ ≫= _) as [versions'|q]; [|done]. by rewrite IH.
Qed.

(** The categories of the definition returned are those of the name set
    it was built with, and the category appended. *)
Lemma derive_categories xrd crd category printerColumns specProps h out :
  wf (strings h) (Names.Categories (CustomResourceDefinitionSpec.Names
                                      (CustomResourceDefinition.Spec crd))) →
  (derive xrd crd category printerColumns specProps h).1 = Return (Some out, None) →
  elements (strings (derive xrd crd category printerColumns specProps h).2)
    (Names.Categories (CustomResourceDefinitionSpec.Names
                         (CustomResourceDefinition.Spec out))) =
  elements (strings h)
    (Names.Categories (CustomResourceDefinitionSpec.Names
                         (CustomResourceDefinition.Spec crd))) ++ [category].
Proof.
  intros Hwf.
  destruct (derive xrd crd category printerColumns specProps h) as [o h'] eqn:Hd.
  cbn [fst snd]. intros ->. revert Hd.
  unfold derive, mbind at 1, M_bind, appendStrings.
  set (categories := Names.Categories _) in *.
  pose proof (elements_append "" (growslice (cap categories) (len categories + 1))
                categories [category] (strings h) Hwf) as Hel.
  change (length [category]) with 1.
  destruct (append "" _ categories [category] (strings h)) as [c a]. simpl in Hel.
  unfold mbind at 1, M_bind. set (h1 := Heap a (columns h) (maps h)).
  pose proof (forVersions_strings printerColumns specProps (Versions (Spec xrd)) 0
                (CustomResourceDefinitionSpec.Versions
                   (CustomResourceDefinition.Spec (setCategories crd c))) h1) as Hs.
  destruct (forVersions _ _ _ _ _ _) as [[[versions'|err]|q] h2]; simpl in *;
    intros [= <- <-]. by rewrite Hs.
Qed.
End heap_properties.

Section claims.
Context `{Externals}.

Import CompositeResourceDefinition CompositeResourceDefinitionSpec.

Implicit Types (xrd : CompositeResourceDefinition.t) (h : heap).

(** C1. Every generated version carries the schema assembled from the
    base schema by merging, in this order, the parsed spec properties
    under "spec", the standard spec properties under "spec" and the
    standard status properties under "status". With the two objects in
    the base schema, the properties under "spec" are the standard ones
    over the parsed ones over the base's, so that the standard value
    is the one found at a shared key; the properties under "status" are
    the standard status ones over the base's, whatever the spec layers
    hold, and the spec layers put nothing there; the other properties
    of the base schema stay as they are. *)
Theorem layers_merge_in_order xrd h :
  (∀ crd, (ForCompositeResource xrd h).1 = Return (Some crd, None) →
     Forall2 (projects CompositeResourceSpecProps) (Versions (Spec xrd))
       (CustomResourceDefinitionSpec.Versions (CustomResourceDefinition.Spec crd))) ∧
  (∀ crd, (ForCompositeResourceClaim xrd h).1 = Return (Some crd, None) →
     Forall2 (projects CompositeResourceClaimSpecProps) (Versions (Spec xrd))
       (CustomResourceDefinitionSpec.Versions (CustomResourceDefinition.Spec crd))) ∧
  (baseDeclared → ∀ p specProps,
     under (layered p specProps) "spec" =
       specProps ∪ (default ∅ p ∪ under BaseProps "spec") ∧
     under (layered p specProps) "status" =
       CompositeResourceStatusProps ∪ under BaseProps "status" ∧
     (∀ key, key ≠ "spec" → key ≠ "status" →
        layered p specProps !! key = BaseProps !! key) ∧
     (∀ k v, specProps !! k = Some v →
        under (layered p specProps) "spec" !! k = Some v) ∧
     (∀ k, CompositeResourceStatusProps !! k = None →
        under BaseProps "status" !! k = None →
        under (layered p specProps) "status" !! k = None) ∧
     (∀ k, specProps !! k = None → default ∅ p !! k = None →
        under BaseProps "spec" !! k = None →
        under (layered p specProps) "spec" !! k = None)).
Proof.
  split_and!.
  - intros crd Hr. pose proof (ForCompositeResource_result xrd h) as Hx.
    by rewrite Hr in Hx.
  - intros crd Hr. pose proof (ForCompositeResourceClaim_result xrd h) as Hx.
    rewrite Hr in Hx. by destruct Hx as (_ & ? & ? & _ & _ & _ & _ & ?).
  - intros Hb p specProps.
    rewrite (under_layered_spec p specProps Hb), (under_layered_status p specProps Hb).
    split_and!; [done|done|apply layered_lookup_ne| | |].
    + intros k v Hk. by apply lookup_union_Some_l.
    + intros k H1 H2. apply lookup_union_None. done.
    + intros k H1 H2 H3. rewrite !lookup_union_None. done.
Qed.

(** C7. When either function returns a definition, its versions are as
    many as those of the input and in their order: the i-th has the
    name and the served flag of the i-th input version, and its
    referenceable flag as storage flag. The functions look at no name
    and no flag to succeed: with the two objects in the base schema,
    schemas that parse are enough (and valid claim names, for a claim). *)
Theorem versions_in_order xrd h :
  (∀ crd,
     (ForCompositeResource xrd h).1 = Return (Some crd, None) ∨
     (ForCompositeResourceClaim xrd h).1 = Return (Some crd, None) →
     let versions :=
       CustomResourceDefinitionSpec.Versions (CustomResourceDefinition.Spec crd) in
     length versions = length (Versions (Spec xrd)) ∧
     ∀ i vr, Versions (Spec xrd) !! i = Some vr →
       ∃ v, versions !! i = Some v ∧
         CustomResourceDefinitionVersion.Name v =
           CompositeResourceDefinitionVersion.Name vr ∧
         CustomResourceDefinitionVersion.Served v =
           CompositeResourceDefinitionVersion.Served vr ∧
         CustomResourceDefinitionVersion.Storage v =
           CompositeResourceDefinitionVersion.Referenceable vr) ∧
  (baseDeclared → parses (Versions (Spec xrd)) →
     (∃ crd, (ForCompositeResource xrd h).1 = Return (Some crd, None)) ∧
     (validateClaimNames xrd = None →
      ∃ crd, (ForCompositeResourceClaim xrd h).1 = Return (Some crd, None))).
Proof.
  split.
  - intros crd Hr versions.
    assert (∃ specProps, Forall2 (projects specProps) (Versions (Spec xrd)) versions)
      as [specProps Hall].
    { destruct Hr as [Hr|Hr].
      - pose proof (ForCompositeResource_result xrd h) as Hx. rewrite Hr in Hx. eauto.
      - pose proof (ForCompositeResourceClaim_result xrd h) as Hx. rewrite Hr in Hx.
        destruct Hx as (_ & ? & ? & _ & _ & _ & _ & ?). eauto. }
    split; [symmetry; by eapply Forall2_length|].
    intros i vr Hi.
    destruct (Forall2_lookup_l _ _ _ _ _ Hall Hi) as (v & Hv & Hn & Hs & Hst & _).
    eauto.
  - intros Hb Hp. split.
    + apply derive_total; [done..|apply length_newDefinition].
    + intros Hv. destruct (validateClaimNames_present _ Hv) as [claim Hc].
      rewrite (ForCompositeResourceClaim_valid _ _ _ Hv Hc).
      apply derive_total; [done..|apply length_newDefinition].
Qed.

(** C10. The claim function dereferences the claim name set only after
    the validation, which lets no absent name set through: no call
    panics on a nil pointer. *)
Theorem claim_names_never_nil xrd h :
  (validateClaimNames xrd = None → is_Some (ClaimNames (Spec xrd))) ∧
  (ForCompositeResourceClaim xrd h).1 ≠ Panicked NilPointerDereference.
Proof.
  split; [apply validateClaimNames_present|].
  pose proof (ForCompositeResourceClaim_result xrd h) as Hx. intros Hr.
  rewrite Hr in Hx. by destruct Hx as [? _].
Qed.

Lemma getSpecProps_error v e :
  (getSpecProps v).2 = Some e →
  ∃ val cause,
    v = Some val ∧ json_Unmarshal (Raw (RawOpenAPIV3Schema val)) = inr cause ∧
    e = errors_Wrap cause errParseValidation.
Proof.
  unfold getSpecProps. destruct v as [val|]; [|done].
  destruct (json_Unmarshal _) as [s|cause] eqn:Hdec; simpl.
  - by destruct (Properties s ≫= _).
  - intros [= <-]. eauto.
Qed.

(** C6, as the code has it. With the two objects in the base schema,
    when the schema of some version does not parse, the composite
    function returns no definition and the error of the decoder for the
    first such version, wrapped with "cannot parse validation schema"
    and then with "cannot get spec properties from validation schema".
    The claim function returns the same when the claim names are valid;
    when they are not, it returns no definition and the error of the
    validation wrapped with "invalid resource claim names". *)
Theorem parse_failure_aborts xrd h :
  baseDeclared → ¬ parses (Versions (Spec xrd)) →
  ∃ before vr after val cause,
    Versions (Spec xrd) = before ++ vr :: after ∧ parses before ∧
    CompositeResourceDefinitionVersion.Schema vr = Some val ∧
    json_Unmarshal (Raw (RawOpenAPIV3Schema val)) = inr cause ∧
    let err := errors_Wrap (errors_Wrap cause errParseValidation) errGetSpecProps in
    (ForCompositeResource xrd h).1 = Return (None, Some err) ∧
    (validateClaimNames xrd = None →
     (ForCompositeResourceClaim xrd h).1 = Return (None, Some err)) ∧
    (∀ e, validateClaimNames xrd = Some e →
     (ForCompositeResourceClaim xrd h).1 =
     Return (None, Some (errors_Wrap e errInvalidClaimNames))).
Proof.
  intros Hb Hn.
  destruct (first_failure _ Hn) as (before & vr & after & e & Hv & Hbefore & He).
  destruct (getSpecProps_error _ _ He) as (val & cause & Hs & Hdec & ->).
  exists before, vr, after, val, cause. cbv zeta. split_and!; [done..| | |].
  - eapply derive_failure; [done|apply length_newDefinition|done..].
  - intros Hvalid. destruct (validateClaimNames_present _ Hvalid) as [claim Hc].
    rewrite (ForCompositeResourceClaim_valid _ _ _ Hvalid Hc).
    eapply derive_failure; [done|apply length_newDefinition|done..].
  - intros e Hinvalid. unfold ForCompositeResourceClaim. by rewrite Hinvalid.
Qed.

(** C8, as the code has it. With the two objects in the base schema,
    for a definition with a claim name set whose kind and plural, and
    singular and list kind when not empty, differ from those of the
    composite, and whose schemas all parse, the claim function returns
    a definition named by the claim plural, a dot and the group,
    namespace-scoped, with the claim's names (kind, plural, singular,
    list kind, short names); its categories are those of the claim and
    "claim" when the slice of the claim's categories is well-formed. *)
Theorem claim_derivation_succeeds xrd h claim :
  baseDeclared →
  ClaimNames (Spec xrd) = Some claim →
  Names.Kind claim ≠ Names.Kind (Names (Spec xrd)) →
  Names.Plural claim ≠ Names.Plural (Names (Spec xrd)) →
  (Names.Singular claim ≠ "" →
   Names.Singular claim ≠ Names.Singular (Names (Spec xrd))) →
  (Names.ListKind claim ≠ "" →
   Names.ListKind claim ≠ Names.ListKind (Names (Spec xrd))) →
  parses (Versions (Spec xrd)) →
  ∃ crd categories,
    (ForCompositeResourceClaim xrd h).1 = Return (Some crd, None) ∧
    ObjectMeta.Name (CustomResourceDefinition.Meta crd) =
      Names.Plural claim +:+ "." +:+ Group (Spec xrd) ∧
    CustomResourceDefinitionSpec.Scope (CustomResourceDefinition.Spec crd) =
      NamespaceScoped ∧
    CustomResourceDefinitionSpec.Names (CustomResourceDefinition.Spec crd) =
      withCategories claim categories ∧
    (wf (strings h) (Names.Categories claim) →
     elements (strings (ForCompositeResourceClaim xrd h).2) categories =
     elements (strings h) (Names.Categories claim) ++ [CategoryClaim]).
Proof.
  intros Hb Hc Hk Hp Hs Hl Hparse.
  pose proof (validateClaimNames_distinct _ _ Hc Hk Hp Hs Hl) as Hvalid.
  pose proof (ForCompositeResourceClaim_result xrd h) as Hx.
  pose proof (ForCompositeResourceClaim_valid _ _ h Hvalid Hc) as Hd.
  destruct (derive_total xrd
              (newDefinition xrd NamespaceScoped
                 (Names.Plural claim +:+ "." +:+ Group (Spec xrd)) claim)
              CategoryClaim CompositeResourceClaimPrinterColumns
              CompositeResourceClaimSpecProps h Hb Hparse
              (length_newDefinition _ _ _ _)) as [crd Hcrd].
  rewrite <-Hd in Hcrd. rewrite Hcrd in Hx.
  destruct Hx as (_ & claim' & categories & Hc' & Hname & Hscope & Hnames & _).
  assert (claim' = claim) as -> by congruence.
  exists crd, categories. split_and!; [done..|].
  intros Hwf. rewrite Hd in Hcrd |- *.
  pose proof (derive_categories xrd
                (newDefinition xrd NamespaceScoped
                   (Names.Plural claim +:+ "." +:+ Group (Spec xrd)) claim)
                CategoryClaim CompositeResourceClaimPrinterColumns
                CompositeResourceClaimSpecProps h crd Hwf Hcrd) as Hcat.
  by rewrite Hnames in Hcat.
Qed.

(** C2, as the code has it. For a definition whose slices fit their
    arrays, and where the cells written by the appends (one category,
    and the standard printer columns of each version) are apart from the
    cells its slices show, the contents of the definition after a call
    of either function are those before the call; and a claim function
    that has no claim names to work with leaves the whole heap as it was. *)
Theorem input_contents_kept xrd h :
  wellFormed h xrd →
  (separated (Names.Categories (Names (Spec xrd)))
     (length CompositeResourcePrinterColumns) xrd →
   contents (ForCompositeResource xrd h).2 xrd = contents h xrd) ∧
  ((∀ claim, ClaimNames (Spec xrd) = Some claim →
      separated (Names.Categories claim)
        (length CompositeResourceClaimPrinterColumns) xrd) →
   contents (ForCompositeResourceClaim xrd h).2 xrd = contents h xrd) ∧
  (ClaimNames (Spec xrd) = None → (ForCompositeResourceClaim xrd h).2 = h).
Proof.
  intros Hwf. split_and!.
  - by apply ForCompositeResource_contents.
  - by apply ForCompositeResourceClaim_contents.
  - intros Hc. unfold ForCompositeResourceClaim, validateClaimNames. by rewrite Hc.
Qed.
End claims.

(** * Further properties of the package *)

Section validation_properties.
Context `{Externals}.

Import CompositeResourceDefinition CompositeResourceDefinitionSpec.

(** X1. The validation accepts a definition exactly when it has claim
    names whose kind and plural differ from those of the composite, and
    whose singular and list kind are empty or differ from them. *)
Theorem validateClaimNames_accepts d :
  validateClaimNames d = None ↔
  ∃ claim,
    ClaimNames (Spec d) = Some claim ∧
    Names.Kind claim ≠ Names.Kind (Names (Spec d)) ∧
    Names.Plural claim ≠ Names.Plural (Names (Spec d)) ∧
    (Names.Singular claim = "" ∨
     Names.Singular claim ≠ Names.Singular (Names (Spec d))) ∧
    (Names.ListKind claim = "" ∨
     Names.ListKind claim ≠ Names.ListKind (Names (Spec d))).
Proof.
  unfold validateClaimNames. destruct (ClaimNames (Spec d)) as [claim|]; cycle 1.
  { split; [done|]. by intros (? & ? & _). }
  split.
  - intros Hv. exists claim. split; [done|].
    destruct (decide (Names.Kind claim = _)) as [|Hk]; [done|].
    destruct (decide (Names.Plural claim = _)) as [|Hp]; [done|].
    destruct (decide (Names.Singular claim ≠ "" ∧ _)) as [|Hs]; [done|].
    destruct (decide (Names.ListKind claim ≠ "" ∧ _)) as [|Hl]; [done|].
    split_and!; [done|done| |].
    + destruct (decide (Names.Singular claim = "")); [by left|right; tauto].
    + destruct (decide (Names.ListKind claim = "")); [by left|right; tauto].
  - intros (claim' & [= <-] & Hk & Hp & Hs & Hl).
    rewrite !decide_False; [done|tauto..].
Qed.

(** The message of the error that wraps a cause. *)
Lemma Error_wrapped cause context :
  Error (errors_Wrap cause context) = context +:+ ": " +:+ Error cause.
Proof. reflexivity. Qed.

(** X11. The messages of the errors of the claim function's validation:
    "invalid resource claim names: missing names" without claim names,
    and "invalid resource claim names: ", the offending value as %q
    prints it and " conflicts with composite resource name" for a
    conflict. *)
Theorem invalid_claim_names_message d h :
  (ClaimNames (Spec d) = None →
   ∃ err, (ForCompositeResourceClaim d h).1 = Return (None, Some err) ∧
          Error err = "invalid resource claim names: missing names") ∧
  (∀ field value, validate d = Some (NameConflict field value) →
   ∃ err, (ForCompositeResourceClaim d h).1 = Return (None, Some err) ∧
          Error err = "invalid resource claim names: " +:+ strconv_Quote value +:+
                      " conflicts with composite resource name").
Proof.
  split.
  - intros Hc. unfold ForCompositeResourceClaim, validateClaimNames. rewrite Hc.
    eexists. split; reflexivity.
  - intros field value Hv. unfold ForCompositeResourceClaim.
    rewrite validateClaimNames_validate, Hv. eexists. split; reflexivity.
Qed.
End validation_properties.

Section established_properties.

Lemma isEstablished_establishedOnly (conditions : list Condition.t) :
  isEstablished (establishedOnly conditions) = isEstablished conditions.
Proof.
  unfold establishedOnly. induction conditions as [|c rest IH]; [done|].
  simpl. destruct (decide (Condition.Type_ c = Established)) as [Hc|Hc].
  - rewrite filter_cons_True by done. simpl. by rewrite decide_True.
  - by rewrite filter_cons_False.
Qed.

(** X10. The answer of [IsEstablished] does not depend on the order of
    the conditions when at most one of them is of the type
    "Established". *)
Theorem IsEstablished_any_order (s s' : CustomResourceDefinitionStatus) :
  Conditions s ≡ₚ Conditions s' →
  length (establishedOnly (Conditions s)) ≤ 1 →
  IsEstablished s = IsEstablished s'.
Proof.
  intros Hperm Hone. unfold IsEstablished.
  rewrite <-(isEstablished_establishedOnly (Conditions s)),
          <-(isEstablished_establishedOnly (Conditions s')).
  assert (establishedOnly (Conditions s) ≡ₚ establishedOnly (Conditions s')) as Hp.
  { unfold establishedOnly. by rewrite Hperm. }
  destruct (establishedOnly (Conditions s)) as [|c [|c' rest]]; simpl in Hone; [| |lia].
  - by apply Permutation_nil_l in Hp as <-.
  - by apply Permutation_singleton_l in Hp as <-.
Qed.
End established_properties.

Section order_properties.
Context `{Externals}.

Implicit Types (versions : list CustomResourceDefinitionVersion.t)
  (l : list (string * JSONSchemaProps)).

Lemma withSchema_id (ver : CustomResourceDefinitionVersion.t) schema :
  CustomResourceDefinitionVersion.Schema ver =
    Some {| OpenAPIV3Schema := Some schema |} →
  withSchema ver schema = ver.
Proof. destruct ver; simpl; by intros ->. Qed.

(** X2. The loop over a layer gives the same result in whatever order
    the iteration visits the entries of the map. *)
Theorem rangeAssign_any_order i underKey l l' versions :
  l ≡ₚ l' → NoDup l.*1 →
  rangeAssign i underKey l versions = rangeAssign i underKey l' versions.
Proof.
  intros Hperm Hnd.
  destruct l as [|[k v] l].
  { by apply Permutation_nil_l in Hperm as <-. }
  destruct l' as [|[k' v'] l'].
  { symmetry in Hperm. by apply Permutation_nil_l in Hperm. }
  destruct (versions !! i) as [ver|] eqn:Hi;
    [|by simpl; unfold assignProperty; rewrite Hi].
  destruct (CustomResourceDefinitionVersion.Schema ver) as [[[schema|]]|] eqn:Hs;
    [|by simpl; unfold assignProperty; rewrite Hi, Hs
     |by simpl; unfold assignProperty; rewrite Hi, Hs].
  destruct (Properties schema) as [props|] eqn:Hprops;
    [|by simpl; unfold assignProperty; rewrite Hi, Hs; simpl; rewrite Hprops].
  destruct (props !! underKey) as [e|] eqn:He;
    [|by simpl; unfold assignProperty; rewrite Hi, Hs; simpl; rewrite Hprops, He].
  destruct (Properties e) as [m|] eqn:Hm;
    [|by simpl; unfold assignProperty; rewrite Hi, Hs; simpl; rewrite Hprops, He, Hm].
  assert (versions !! i = Some (withSchema ver (withProperties schema props))) as Hi'.
  { by rewrite (withProperties_id _ _ Hprops), (withSchema_id _ _ Hs). }
  rewrite !(rangeAssign_declared _ _ _ _ _ _ _ _ _ Hi' He Hm).
  rewrite !foldl_insert_union; [|by rewrite <-Hperm|done].
  by rewrite (list_to_map_proper _ _ Hnd Hperm).
Qed.
End order_properties.

Section outcome_properties.
Context `{Externals}.

Import CompositeResourceDefinition CompositeResourceDefinitionSpec.

Implicit Types (xrd : CompositeResourceDefinition.t) (h : heap).

Lemma projects_parses specProps vrs versions :
  Forall2 (projects specProps) vrs versions → parses vrs.
Proof.
  induction 1 as [|vr v vrs versions (_ & _ & _ & _ & p & Hp & _) _ IH];
    constructor; [by rewrite Hp|done].
Qed.

(** X3. With the two objects in the base schema, the composite function
    returns a definition and no error exactly when every schema parses,
    and no definition and an error exactly when one does not; it returns
    nothing else. *)
Theorem ForCompositeResource_outcome xrd h :
  baseDeclared →
  ((∃ crd, (ForCompositeResource xrd h).1 = Return (Some crd, None)) ↔
   parses (Versions (Spec xrd))) ∧
  ((∃ err, (ForCompositeResource xrd h).1 = Return (None, Some err)) ↔
   ¬ parses (Versions (Spec xrd))) ∧
  ((∃ crd, (ForCompositeResource xrd h).1 = Return (Some crd, None)) ∨
   (∃ err, (ForCompositeResource xrd h).1 = Return (None, Some err))).
Proof.
  intros Hb. pose proof (ForCompositeResource_result xrd h) as Hr.
  destruct (ForCompositeResource xrd h).1 as [[[crd|] [err|]]|q]; try done.
  - pose proof (projects_parses _ _ _ Hr) as Hp.
    split_and!; [split; eauto|split; [by intros [? ?]|done]|eauto].
  - destruct Hr as (before & vr & after & cause & Hv & _ & Hc & _).
    assert (¬ parses (Versions (Spec xrd))) as Hn.
    { intros Hp. by eapply parses_first_failure. }
    split_and!; [split; [by intros [? ?]|done]|split; eauto|eauto].
  - by destruct Hr as [_ []].
Qed.

(** X4. With the two objects in the base schema, the claim function
    returns a definition and no error exactly when the claim names are
    valid and every schema parses, and no definition and an error in
    every other case. *)
Theorem ForCompositeResourceClaim_outcome xrd h :
  baseDeclared →
  ((∃ crd, (ForCompositeResourceClaim xrd h).1 = Return (Some crd, None)) ↔
   validateClaimNames xrd = None ∧ parses (Versions (Spec xrd))) ∧
  ((∃ err, (ForCompositeResourceClaim xrd h).1 = Return (None, Some err)) ↔
   ¬ (validateClaimNames xrd = None ∧ parses (Versions (Spec xrd)))) ∧
  ((∃ crd, (ForCompositeResourceClaim xrd h).1 = Return (Some crd, None)) ∨
   (∃ err, (ForCompositeResourceClaim xrd h).1 = Return (None, Some err))).
Proof.
  intros Hb. pose proof (ForCompositeResourceClaim_result xrd h) as Hr.
  destruct (ForCompositeResourceClaim xrd h).1 as [[[crd|] [err|]]|q]; try done.
  - destruct Hr as (Hv & claim & categories & _ & _ & _ & _ & Hall).
    pose proof (projects_parses _ _ _ Hall) as Hp.
    split_and!; [split; eauto|split; [by intros [? ?]|tauto]|eauto].
  - assert (¬ (validateClaimNames xrd = None ∧ parses (Versions (Spec xrd)))) as Hn.
    { intros [Hv Hp]. destruct Hr as [(cause & Hc & _)|(_ & Hf)]; [congruence|].
      destruct Hf as (before & vr & after & cause & Hvs & _ & Hc & _).
      by eapply parses_first_failure. }
    split_and!; [split; [by intros [? ?]|done]|split; eauto|eauto].
  - by destruct Hr as [_ []].
Qed.

(** X5. The definition the composite function returns is cluster-scoped
    and has the name and the group of the input, the very maps of its
    labels and annotations, one owner reference, to the input as
    controller, and the names of the input with another slice of
    categories. *)
Theorem ForCompositeResource_identity xrd h crd :
  (ForCompositeResource xrd h).1 = Return (Some crd, None) →
  let meta := CustomResourceDefinition.Meta crd in
  let spec := CustomResourceDefinition.Spec crd in
  ObjectMeta.Name meta = ObjectMeta.Name (Meta xrd) ∧
  ObjectMeta.Labels meta = ObjectMeta.Labels (Meta xrd) ∧
  ObjectMeta.Annotations meta = ObjectMeta.Annotations (Meta xrd) ∧
  ObjectMeta.OwnerReferences meta =
    [OwnerReference.Build
       CompositeResourceDefinitionGroupVersionKind.1
       CompositeResourceDefinitionGroupVersionKind.2
       (ObjectMeta.Name (Meta xrd)) (ObjectMeta.UID (Meta xrd)) (Some true)] ∧
  CustomResourceDefinitionSpec.Group spec = Group (Spec xrd) ∧
  CustomResourceDefinitionSpec.Scope spec = ClusterScoped ∧
  ∃ categories,
    CustomResourceDefinitionSpec.Names spec = withCategories (Names (Spec xrd)) categories.
Proof.
  intros Hr. unfold ForCompositeResource in Hr.
  pose proof (derive_result xrd _ CategoryComposite CompositeResourcePrinterColumns
                CompositeResourceSpecProps h
                (length_newDefinition xrd ClusterScoped
                   (ObjectMeta.Name (Meta xrd)) (Names (Spec xrd)))) as Hd.
  rewrite Hr in Hd. destruct Hd as (Hm & Hg & Hs & Hn & _).
  cbv zeta. rewrite Hm, Hg, Hs. by split_and!.
Qed.

(** X6. The definition the claim function returns has the group of the
    input, the very maps of its labels and annotations, and one owner
    reference, to the input as controller. *)
Theorem ForCompositeResourceClaim_identity xrd h crd :
  (ForCompositeResourceClaim xrd h).1 = Return (Some crd, None) →
  let meta := CustomResourceDefinition.Meta crd in
  ObjectMeta.Labels meta = ObjectMeta.Labels (Meta xrd) ∧
  ObjectMeta.Annotations meta = ObjectMeta.Annotations (Meta xrd) ∧
  ObjectMeta.OwnerReferences meta =
    [OwnerReference.Build
       CompositeResourceDefinitionGroupVersionKind.1
       CompositeResourceDefinitionGroupVersionKind.2
       (ObjectMeta.Name (Meta xrd)) (ObjectMeta.UID (Meta xrd)) (Some true)] ∧
  CustomResourceDefinitionSpec.Group (CustomResourceDefinition.Spec crd) =
    Group (Spec xrd).
Proof.
  intros Hr.
  pose proof (ForCompositeResourceClaim_result xrd h) as Hx. rewrite Hr in Hx.
  destruct Hx as (Hv & claim & _ & Hc & _).
  rewrite (ForCompositeResourceClaim_valid _ _ _ Hv Hc) in Hr.
  pose proof (derive_result xrd _ CategoryClaim CompositeResourceClaimPrinterColumns
                CompositeResourceClaimSpecProps h
                (length_newDefinition xrd NamespaceScoped
                   (Names.Plural claim +:+ "." +:+ Group (Spec xrd)) claim)) as Hd.
  rewrite Hr in Hd. destruct Hd as (Hm & Hg & _).
  cbv zeta. rewrite Hm, Hg. by split_and!.
Qed.

(** X7. The categories of the definition the composite function returns
    are those of the input followed by "composite", when the slice of the
    input's categories fits its array. *)
Theorem ForCompositeResource_categories xrd h crd :
  wf (strings h) (Names.Categories (Names (Spec xrd))) →
  (ForCompositeResource xrd h).1 = Return (Some crd, None) →
  elements (strings (ForCompositeResource xrd h).2)
    (Names.Categories (CustomResourceDefinitionSpec.Names
                         (CustomResourceDefinition.Spec crd))) =
  elements (strings h) (Names.Categories (Names (Spec xrd))) ++ [CategoryComposite].
Proof.
  intros Hwf Hr. unfold ForCompositeResource in *.
  exact (derive_categories xrd
           (newDefinition xrd ClusterScoped (ObjectMeta.Name (Meta xrd))
              (Names (Spec xrd)))
           CategoryComposite CompositeResourcePrinterColumns
           CompositeResourceSpecProps h crd Hwf Hr).
Qed.

(** X15. With the two objects in the base schema, when the schema of
    some version does not decode, the message of the composite
    function's error is "cannot get spec properties from validation
    schema: cannot parse validation schema: " and the message of the
    decoder for the first such version. *)
Theorem parse_failure_message xrd h :
  baseDeclared → ¬ parses (Versions (Spec xrd)) →
  ∃ before vr after val cause err,
    Versions (Spec xrd) = before ++ vr :: after ∧ parses before ∧
    CompositeResourceDefinitionVersion.Schema vr = Some val ∧
    json_Unmarshal (Raw (RawOpenAPIV3Schema val)) = inr cause ∧
    (ForCompositeResource xrd h).1 = Return (None, Some err) ∧
    Error err =
      "cannot get spec properties from validation schema: " +:+
      "cannot parse validation schema: " +:+ Error cause.
Proof.
  intros Hb Hn.
  destruct (first_failure _ Hn) as (before & vr & after & e & Hv & Hbefore & He).
  destruct (getSpecProps_error _ _ He) as (val & cause & Hs & Hdec & ->).
  exists before, vr, after, val, cause,
    (errors_Wrap (errors_Wrap cause errParseValidation) errGetSpecProps).
  split_and!; [done..| |reflexivity].
  eapply derive_failure; [done|apply length_newDefinition|done..].
Qed.
(** X16. For a definition without versions the composite function
    returns a definition without versions, whatever the base schema
    holds, and so does the claim function when the claim names are
    valid. *)
Theorem no_versions_no_failure xrd h :
  Versions (Spec xrd) = [] →
  (∃ crd, (ForCompositeResource xrd h).1 = Return (Some crd, None) ∧
          CustomResourceDefinitionSpec.Versions (CustomResourceDefinition.Spec crd) = []) ∧
  (validateClaimNames xrd = None →
   ∃ crd, (ForCompositeResourceClaim xrd h).1 = Return (Some crd, None) ∧
          CustomResourceDefinitionSpec.Versions (CustomResourceDefinition.Spec crd) = []).
Proof.
  intros Hv. split.
  - pose proof (ForCompositeResource_result xrd h) as Hr. rewrite Hv in Hr.
    destruct (ForCompositeResource xrd h).1 as [[[crd|] [err|]]|q] eqn:Hf; try done.
    + exists crd. split; [done|]. by apply Forall2_nil_inv_l in Hr.
    + destruct Hr as (before & vr & after & cause & Hvs & _). by destruct before.
    + exfalso. revert Hf. unfold ForCompositeResource, derive.
      unfold mbind at 1, M_bind, appendStrings. destruct (append _ _ _ _ _).
      unfold mbind at 1, M_bind. simpl. by rewrite Hv.
  - intros Hvalid.
    pose proof (ForCompositeResourceClaim_result xrd h) as Hr. rewrite Hv in Hr.
    destruct (ForCompositeResourceClaim xrd h).1 as [[[crd|] [err|]]|q] eqn:Hf; try done.
    + exists crd. split; [done|].
      destruct Hr as (_ & ? & ? & _ & _ & _ & _ & Hall). by apply Forall2_nil_inv_l in Hall.
    + destruct Hr as [(cause & Hc & _)|(_ & before & vr & after & cause & Hvs & _)];
        [congruence|by destruct before].
    + exfalso. destruct (validateClaimNames_present _ Hvalid) as [claim Hc].
      rewrite (ForCompositeResourceClaim_valid _ _ _ Hvalid Hc) in Hf. revert Hf.
      unfold derive. unfold mbind at 1, M_bind, appendStrings.
      destruct (append _ _ _ _ _). unfold mbind at 1, M_bind. simpl. by rewrite Hv.
Qed.
End outcome_properties.

Section append_properties.
Context {A : Type} (zero : A).
Implicit Types (a : gmap loc (list A)) (s t : slice) (xs : list A).

(** [append] keeps every slice that fits its array fitting it. *)
Lemma append_wf slack s xs a t :
  wf a s → wf a t → wf (append zero slack s xs a).2 t.
Proof.
  intros [Hs1 Hs2] [Ht1 Ht2]. unfold append. case_decide as Hcap; simpl.
  - destruct (decide (length xs = 0)) as [Hxs|Hxs].
    { apply nil_length_inv in Hxs as ->. by rewrite store_nothing. }
    split; [done|]. rewrite store_length; [done|]. destruct Hs2; lia.
  - pose proof (is_fresh (dom a)) as Hfresh. apply not_elem_of_dom in Hfresh.
    split; [done|]. destruct Ht2 as [?|Ht2]; [by left|].
    destruct (decide (array t = fresh (dom a))) as [Heq|Hne].
    + rewrite Heq, Hfresh in Ht2. simpl in Ht2. left. lia.
    + right. by rewrite lookup_insert_ne.
Qed.

(** The slice [append] returns fits its array. *)
Lemma append_result_wf slack s xs a :
  wf a s → wf (append zero slack s xs a).2 (append zero slack s xs a).1.
Proof.
  intros Hwf. pose proof (elements_length _ _ Hwf) as Hlen.
  destruct Hwf as [Hs1 Hs2]. unfold append. case_decide as Hcap; simpl.
  - split; [done|]. simpl.
    destruct (decide (length xs = 0)) as [Hxs|Hxs].
    { apply nil_length_inv in Hxs as ->. by rewrite store_nothing. }
    right. rewrite store_length; destruct Hs2; lia.
  - split; simpl; [lia|]. right. rewrite lookup_insert_eq. simpl.
    rewrite !length_app, length_replicate. lia.
Qed.

(** The slice [append] returns when the capacity suffices. *)
Lemma append_in_place slack s xs a :
  len s + length xs ≤ cap s →
  (append zero slack s xs a).1 = extended (length xs) s.
Proof. intros Hcap. unfold append. by rewrite decide_True. Qed.

(** An append of a slice that fits its array writes no cell of the
    slice that another append moved to a new array. *)
Lemma apart_moved slack k s xs a t :
  wf a t → ¬ len s + length xs ≤ cap s →
  apart k t (append zero slack s xs a).1.
Proof.
  intros [Ht1 Ht2] Hcap. unfold append. rewrite decide_False by done. simpl.
  unfold apart. simpl.
  destruct (decide (k = 0)) as [|Hk]; [by left|].
  destruct (decide (cap t = 0)) as [Hc|Hc]; [right; left; lia|].
  destruct Ht2 as [?|Ht2]; [done|].
  do 3 right. left. intros Heq.
  pose proof (is_fresh (dom a)) as Hfresh. apply not_elem_of_dom in Hfresh.
  rewrite Heq, Hfresh in Ht2. simpl in Ht2. lia.
Qed.
End append_properties.

Section appended_properties.
Context `{Externals}.

Import CompositeResourceDefinition CompositeResourceDefinitionSpec.

Implicit Types (vrs : list CompositeResourceDefinitionVersion.t)
  (a : gmap loc (list Column.t)) (versions : list CustomResourceDefinitionVersion.t).

Lemma length_appended printerColumns vrs a :
  length (appended printerColumns vrs a).1 = length vrs.
Proof. revert a. induction vrs as [|vr rest IH]; intros a; simpl; [done|]. by rewrite IH. Qed.

(** A slice with room for the printer columns comes back extended in
    place. *)
Lemma appended_in_place printerColumns vrs a :
  Forall2 (λ vr c,
             let s := CompositeResourceDefinitionVersion.AdditionalPrinterColumns vr in
             len s + length printerColumns ≤ cap s →
             c = extended (length printerColumns) s)
    vrs (appended printerColumns vrs a).1.
Proof.
  revert a. induction vrs as [|vr rest IH]; intros a; simpl; constructor; [|apply IH].
  cbv zeta. intros Hcap. by apply append_in_place.
Qed.


(** The appends keep what a slice shows when they are apart from it. *)
Lemma appended_frame printerColumns vrs a t :
  wf a t →
  Forall (wf a) (CompositeResourceDefinitionVersion.AdditionalPrinterColumns <$> vrs) →
  Forall (λ vr, apart (length printerColumns)
                  (CompositeResourceDefinitionVersion.AdditionalPrinterColumns vr) t) vrs →
  elements (appended printerColumns vrs a).2 t = elements a t.
Proof.
  revert a. induction vrs as [|vr rest IH]; intros a Ht Hwf Hap; simpl; [done|].
  apply Forall_cons in Hwf as [Hs Hwf]. apply Forall_cons in Hap as [Hap Hap'].
  destruct (append_frame Column.zero
              (growslice (cap (CompositeResourceDefinitionVersion.AdditionalPrinterColumns vr))
                 (len (CompositeResourceDefinitionVersion.AdditionalPrinterColumns vr) +
                  length printerColumns))
              _ printerColumns a t Hs Ht Hap) as [Hel Hwf'].
  rewrite IH; [done|done| |done].
  eapply Forall_impl; [exact Hwf|]. intros t' Ht'. by apply append_wf.
Qed.

(** After appends that stay clear of each other, every slice returned
    shows the elements of the slice it was made from and the printer
    columns. *)
Lemma appended_elements printerColumns vrs a j vr c :
  Forall (wf a) (CompositeResourceDefinitionVersion.AdditionalPrinterColumns <$> vrs) →
  clear (length printerColumns)
    (CompositeResourceDefinitionVersion.AdditionalPrinterColumns <$> vrs) →
  vrs !! j = Some vr → (appended printerColumns vrs a).1 !! j = Some c →
  elements (appended printerColumns vrs a).2 c =
  elements a (CompositeResourceDefinitionVersion.AdditionalPrinterColumns vr) ++
  printerColumns.
Proof.
  revert a j vr c.
  induction vrs as [|vr0 rest IH]; intros a j vr c Hwf Hclear Hj Hc; [done|].
  simpl in Hwf, Hclear, Hc |- *.
  apply Forall_cons in Hwf as [Hs Hwf]. destruct Hclear as [Hhead Hclear].
  set (s := CompositeResourceDefinitionVersion.AdditionalPrinterColumns vr0) in *.
  set (slack := growslice (cap s) (len s + length printerColumns)) in *.
  assert (Forall (wf (append Column.zero slack s printerColumns a).2)
            (CompositeResourceDefinitionVersion.AdditionalPrinterColumns <$> rest)) as Hwf1.
  { eapply Forall_impl; [exact Hwf|]. intros t' Ht'. by apply append_wf. }
  assert (∀ vr', vr' ∈ rest →
            wf a (CompositeResourceDefinitionVersion.AdditionalPrinterColumns vr') ∧
            apart (length printerColumns) s
              (CompositeResourceDefinitionVersion.AdditionalPrinterColumns vr') ∧
            (len s + length printerColumns ≤ cap s →
             apart (length printerColumns)
               (CompositeResourceDefinitionVersion.AdditionalPrinterColumns vr')
               (extended (length printerColumns) s))) as Hrest.
  { intros vr' Hvr'.
    assert (CompositeResourceDefinitionVersion.AdditionalPrinterColumns vr' ∈
            CompositeResourceDefinitionVersion.AdditionalPrinterColumns <$> rest) as Hin
      by by apply list_elem_of_fmap_2.
    split; [by eapply Forall_forall in Hwf|].
    by eapply Forall_forall in Hhead. }
  destruct j as [|j]; simpl in Hj, Hc.
  - injection Hj as <-. injection Hc as <-.
    rewrite appended_frame; [by apply elements_append|by apply append_result_wf|done|].
    apply Forall_forall. intros vr' Hvr'.
    destruct (Hrest vr' Hvr') as (Hwfv & _ & Hlater).
    destruct (decide (len s + length printerColumns ≤ cap s)) as [Hcap|Hcap].
    + rewrite append_in_place by done. by apply Hlater.
    + by apply apart_moved.
  - rewrite (IH _ _ _ _ Hwf1 Hclear Hj Hc). f_equal.
    assert (vr ∈ rest) as Hvr by by eapply list_elem_of_lookup_2.
    destruct (Hrest vr Hvr) as (Hwfv & Hap & _).
    by apply append_frame.
Qed.
End appended_properties.

Section column_properties.
Context `{Externals}.

Import CompositeResourceDefinition CompositeResourceDefinitionSpec.

Implicit Types (xrd : CompositeResourceDefinition.t) (h : heap)
  (vrs : list CompositeResourceDefinitionVersion.t)
  (versions : list CustomResourceDefinitionVersion.t).

(** The loop that ends leaves the arrays of columns that its appends
    leave, and the versions it returns have the slices they return. *)
Lemma forVersions_appended printerColumns specProps vrs i versions h versions' h' :
  i + length vrs = length versions →
  forVersions printerColumns specProps i vrs versions h = (Return (inl versions'), h') →
  columns h' = (appended printerColumns vrs (columns h)).2 ∧
  CustomResourceDefinitionVersion.AdditionalPrinterColumns <$> drop i versions' =
    (appended printerColumns vrs (columns h)).1.
Proof.
  revert i versions h. induction vrs as [|vr rest IH]; intros i versions h Hlen Hr.
  - simpl in *. injection Hr as <- <-. split; [done|]. by rewrite drop_ge by lia.
  - rewrite forVersions_cons in Hr. cbv zeta in Hr. simpl in Hlen.
    rewrite decide_True in Hr by lia.
    destruct (getSpecProps _) as [p [cause|]] eqn:Hp; [done|].
    set (s := CompositeResourceDefinitionVersion.AdditionalPrinterColumns vr) in *.
    set (ca := append Column.zero _ s printerColumns (columns h)) in *.
    destruct (layers_projected i vr ca.1 p specProps versions) as [Hl|[Hl _]];
      [lia| |by rewrite Hl in Hr].
    rewrite Hl in Hr.
    pose proof (forVersions_result printerColumns specProps rest (S i)
                  (<[i := projected vr ca.1 p specProps]> versions)
                  (Heap (strings h) ca.2 (maps h))) as Hres.
    rewrite length_insert in Hres. specialize (Hres ltac:(lia)).
    rewrite Hr in Hres. simpl in Hres. destruct Hres as (Hl' & Htake & _).
    assert (S i + length rest =
            length (<[i := projected vr ca.1 p specProps]> versions)) as Hlen'
      by (rewrite length_insert; lia).
    destruct (IH _ _ _ Hlen' Hr) as [Hc Hs].
    cbn [columns] in Hc, Hs. cbn [appended]. cbv zeta. cbn [fst snd].
    fold s. fold ca. split; [done|].
    assert (versions' !! i = Some (projected vr ca.1 p specProps)) as Hi.
    { rewrite <-(lookup_take_lt _ (S i)) by lia. rewrite Htake.
      rewrite lookup_take_lt by lia. apply list_lookup_insert_eq. lia. }
    by rewrite (drop_S _ _ _ Hi), fmap_cons, Hs.
Qed.

(** The common part of the two functions, when it returns a definition:
    its categories are the slice of the one append of strings, its
    printer columns the slices of the appends of columns, and the heap is
    what these appends leave. *)
Lemma derive_appended xrd crd category printerColumns specProps h out h' :
  length (CustomResourceDefinitionSpec.Versions (CustomResourceDefinition.Spec crd)) =
  length (Versions (Spec xrd)) →
  derive xrd crd category printerColumns specProps h = (Return (Some out, None), h') →
  let c := Names.Categories (CustomResourceDefinitionSpec.Names
                               (CustomResourceDefinition.Spec crd)) in
  let ca := append "" (growslice (cap c) (len c + 1)) c [category] (strings h) in
  Names.Categories (CustomResourceDefinitionSpec.Names
                      (CustomResourceDefinition.Spec out)) = ca.1 ∧
  strings h' = ca.2 ∧
  columns h' = (appended printerColumns (Versions (Spec xrd)) (columns h)).2 ∧
  CustomResourceDefinitionVersion.AdditionalPrinterColumns <$>
    CustomResourceDefinitionSpec.Versions (CustomResourceDefinition.Spec out) =
  (appended printerColumns (Versions (Spec xrd)) (columns h)).1.
Proof.
  intros Hlen. cbv zeta. unfold derive, mbind at 1, M_bind, appendStrings.
  set (c := Names.Categories _).
  change (length [category]) with 1.
  destruct (append "" _ c [category] (strings h)) as [c' a] eqn:Hca.
  unfold mbind at 1, M_bind. set (h1 := Heap a (columns h) (maps h)).
  cbn [CustomResourceDefinition.Spec setCategories CustomResourceDefinitionSpec.Versions].
  destruct (forVersions _ _ _ _ _ _) as [[[versions'|err]|q] h2] eqn:Hloop;
    simpl; intros [= <- <-].
  pose proof (forVersions_strings printerColumns specProps (Versions (Spec xrd)) 0
                (CustomResourceDefinitionSpec.Versions (CustomResourceDefinition.Spec crd))
                h1) as Hs.
  rewrite Hloop in Hs. simpl in Hs.
  destruct (forVersions_appended printerColumns specProps (Versions (Spec xrd)) 0
              _ h1 versions' h2 (eq_sym Hlen) Hloop) as [Hc Hv].
  rewrite drop_0 in Hv. simpl. done.
Qed.

Lemma derive_in_place xrd crd category printerColumns specProps h out h' :
  length (CustomResourceDefinitionSpec.Versions (CustomResourceDefinition.Spec crd)) =
  length (Versions (Spec xrd)) →
  derive xrd crd category printerColumns specProps h = (Return (Some out, None), h') →
  let c := Names.Categories (CustomResourceDefinitionSpec.Names
                               (CustomResourceDefinition.Spec crd)) in
  (len c + 1 ≤ cap c →
   Names.Categories (CustomResourceDefinitionSpec.Names
                       (CustomResourceDefinition.Spec out)) = extended 1 c) ∧
  Forall2 (λ vr v,
             let s := CompositeResourceDefinitionVersion.AdditionalPrinterColumns vr in
             len s + length printerColumns ≤ cap s →
             CustomResourceDefinitionVersion.AdditionalPrinterColumns v =
             extended (length printerColumns) s)
    (Versions (Spec xrd))
    (CustomResourceDefinitionSpec.Versions (CustomResourceDefinition.Spec out)).
Proof.
  intros Hlen Hr. destruct (derive_appended _ _ _ _ _ _ _ _ Hlen Hr) as (Hc & _ & _ & Hv).
  cbv zeta. split.
  - intros Hcap. rewrite Hc. by apply (append_in_place "" _ _ [category]).
  - pose proof (appended_in_place printerColumns (Versions (Spec xrd)) (columns h)) as Hall.
    rewrite <-Hv in Hall. by apply Forall2_fmap_r in Hall.
Qed.

Lemma derive_printer_columns xrd crd category printerColumns specProps h out h' :
  length (CustomResourceDefinitionSpec.Versions (CustomResourceDefinition.Spec crd)) =
  length (Versions (Spec xrd)) →
  Forall (wf (columns h)) (columnSlices xrd) →
  clear (length printerColumns) (columnSlices xrd) →
  derive xrd crd category printerColumns specProps h = (Return (Some out, None), h') →
  Forall2 (λ vr v,
             elements (columns h')
               (CustomResourceDefinitionVersion.AdditionalPrinterColumns v) =
             elements (columns h)
               (CompositeResourceDefinitionVersion.AdditionalPrinterColumns vr) ++
             printerColumns)
    (Versions (Spec xrd))
    (CustomResourceDefinitionSpec.Versions (CustomResourceDefinition.Spec out)).
Proof.
  intros Hlen Hwf Hclear Hr.
  destruct (derive_appended _ _ _ _ _ _ _ _ Hlen Hr) as (_ & _ & Hc & Hv).
  apply Forall2_same_length_lookup_2.
  - apply (f_equal length) in Hv. by rewrite length_fmap, length_appended in Hv.
  - intros j vr v Hvr Hj. rewrite Hc.
    apply (appended_elements printerColumns (Versions (Spec xrd)) (columns h) j);
      [done..|].
    by rewrite <-Hv, list_lookup_fmap, Hj.
Qed.

(** X8. A slice of the input with room for what the composite function
    appends comes back in the definition as the same cells of the same
    array and the appended ones after them: the categories when there is
    room for one more, the printer columns of a version when there is
    room for the standard ones. *)
Theorem ForCompositeResource_extends_in_place xrd h crd h' :
  ForCompositeResource xrd h = (Return (Some crd, None), h') →
  (let c := Names.Categories (Names (Spec xrd)) in
   len c + 1 ≤ cap c →
   Names.Categories (CustomResourceDefinitionSpec.Names
                       (CustomResourceDefinition.Spec crd)) = extended 1 c) ∧
  Forall2 (λ vr v,
             let s := CompositeResourceDefinitionVersion.AdditionalPrinterColumns vr in
             len s + length CompositeResourcePrinterColumns ≤ cap s →
             CustomResourceDefinitionVersion.AdditionalPrinterColumns v =
             extended (length CompositeResourcePrinterColumns) s)
    (Versions (Spec xrd))
    (CustomResourceDefinitionSpec.Versions (CustomResourceDefinition.Spec crd)).
Proof.
  intros Hr. unfold ForCompositeResource in Hr.
  exact (derive_in_place _ _ _ _ _ _ _ _ (length_newDefinition _ _ _ _) Hr).
Qed.

Lemma ForCompositeResourceClaim_derive xrd h crd h' :
  ForCompositeResourceClaim xrd h = (Return (Some crd, None), h') →
  ∃ claim,
    ClaimNames (Spec xrd) = Some claim ∧
    derive xrd
      (newDefinition xrd NamespaceScoped
         (Names.Plural claim +:+ "." +:+ Group (Spec xrd)) claim)
      CategoryClaim CompositeResourceClaimPrinterColumns
      CompositeResourceClaimSpecProps h = (Return (Some crd, None), h').
Proof.
  intros Hr. pose proof (ForCompositeResourceClaim_result xrd h) as Hx.
  rewrite Hr in Hx. destruct Hx as (Hv & claim & _ & Hc & _).
  exists claim. split; [done|].
  by rewrite <-(ForCompositeResourceClaim_valid _ _ _ Hv Hc).
Qed.

(** X9. A slice of the input with room for what the claim function
    appends comes back in the definition as the same cells of the same
    array and the appended ones after them: the categories of the claim
    names when there is room for one more, the printer columns of a
    version when there is room for the standard ones of a claim. *)
Theorem ForCompositeResourceClaim_extends_in_place xrd h crd h' :
  ForCompositeResourceClaim xrd h = (Return (Some crd, None), h') →
  ∃ claim,
    ClaimNames (Spec xrd) = Some claim ∧
    (len (Names.Categories claim) + 1 ≤ cap (Names.Categories claim) →
     Names.Categories (CustomResourceDefinitionSpec.Names
                         (CustomResourceDefinition.Spec crd)) =
     extended 1 (Names.Categories claim)) ∧
    Forall2 (λ vr v,
               let s := CompositeResourceDefinitionVersion.AdditionalPrinterColumns vr in
               len s + length CompositeResourceClaimPrinterColumns ≤ cap s →
               CustomResourceDefinitionVersion.AdditionalPrinterColumns v =
               extended (length CompositeResourceClaimPrinterColumns) s)
      (Versions (Spec xrd))
      (CustomResourceDefinitionSpec.Versions (CustomResourceDefinition.Spec crd)).
Proof.
  intros Hr. destruct (ForCompositeResourceClaim_derive _ _ _ _ Hr) as (claim & Hc & Hd).
  exists claim. split; [done|].
  exact (derive_in_place _ _ _ _ _ _ _ _ (length_newDefinition _ _ _ _) Hd).
Qed.

(** X12. When the slices of the printer columns fit their arrays and the
    appends of the standard columns stay clear of each other, every
    version of the definition the composite function returns shows the
    printer columns of its input version followed by the standard ones. *)
Theorem ForCompositeResource_printer_columns xrd h crd h' :
  Forall (wf (columns h)) (columnSlices xrd) →
  clear (length CompositeResourcePrinterColumns) (columnSlices xrd) →
  ForCompositeResource xrd h = (Return (Some crd, None), h') →
  Forall2 (λ vr v,
             elements (columns h')
               (CustomResourceDefinitionVersion.AdditionalPrinterColumns v) =
             elements (columns h)
               (CompositeResourceDefinitionVersion.AdditionalPrinterColumns vr) ++
             CompositeResourcePrinterColumns)
    (Versions (Spec xrd))
    (CustomResourceDefinitionSpec.Versions (CustomResourceDefinition.Spec crd)).
Proof.
  intros Hwf Hclear Hr. unfold ForCompositeResource in Hr.
  exact (derive_printer_columns _ _ _ _ _ _ _ _ (length_newDefinition _ _ _ _)
           Hwf Hclear Hr).
Qed.

(** X13. When the slices of the printer columns fit their arrays and the
    appends of the standard columns of a claim stay clear of each other,
    every version of the definition the claim function returns shows the
    printer columns of its input version followed by the standard ones
    of a claim. *)
Theorem ForCompositeResourceClaim_printer_columns xrd h crd h' :
  Forall (wf (columns h)) (columnSlices xrd) →
  clear (length CompositeResourceClaimPrinterColumns) (columnSlices xrd) →
  ForCompositeResourceClaim xrd h = (Return (Some crd, None), h') →
  Forall2 (λ vr v,
             elements (columns h')
               (CustomResourceDefinitionVersion.AdditionalPrinterColumns v) =
             elements (columns h)
               (CompositeResourceDefinitionVersion.AdditionalPrinterColumns vr) ++
             CompositeResourceClaimPrinterColumns)
    (Versions (Spec xrd))
    (CustomResourceDefinitionSpec.Versions (CustomResourceDefinition.Spec crd)).
Proof.
  intros Hwf Hclear Hr.
  destruct (ForCompositeResourceClaim_derive _ _ _ _ Hr) as (claim & Hc & Hd).
  exact (derive_printer_columns _ _ _ _ _ _ _ _ (length_newDefinition _ _ _ _)
           Hwf Hclear Hd).
Qed.


End column_properties.

(** * The theorems at the examples *)

Import Demo.

Lemma baseDeclared_demo : baseDeclared.
Proof. split; vm_compute; eexists; reflexivity. Defined.

Lemma parses_plain :
  parses (CompositeResourceDefinitionSpec.Versions (CompositeResourceDefinition.Spec plain)).
Proof.
  repeat (apply Forall_cons; split); try apply Forall_nil; vm_compute; reflexivity.
Defined.

Lemma parses_duplicated :
  parses (CompositeResourceDefinitionSpec.Versions
            (CompositeResourceDefinition.Spec duplicated)).
Proof.
  repeat (apply Forall_cons; split); try apply Forall_nil; vm_compute; reflexivity.
Defined.

Lemma parses_malformed_not :
  ¬ parses (CompositeResourceDefinitionSpec.Versions
              (CompositeResourceDefinition.Spec malformed)).
Proof.
  intros Hp. apply Forall_cons in Hp as [_ Hp]. apply Forall_cons in Hp as [Hp _].
  vm_compute in Hp. discriminate.
Defined.

Lemma wellFormed_plain : wellFormed heap0 plain.
Proof.
  split; repeat (apply Forall_cons; split); try apply Forall_nil;
    vm_compute; lia.
Defined.

(** C3 at two lists with a second "Established" condition after the
    first: the first one decides. *)
Lemma IsEstablished_first_established_witness :
  IsEstablished established = true ∧ IsEstablished notEstablished = false.
Proof.
  split.
  - apply (proj2 (proj2 (IsEstablished_first_established established))
             [condition "NamesAccepted" "False"] (condition "Established" "True")
             [condition "Established" "False"]).
    + reflexivity.
    + apply Forall_cons. split; [intros Heq; discriminate Heq|constructor].
    + reflexivity.
    + reflexivity.
  - refine (proj1 (proj2 (proj2 (proj2 (IsEstablished_first_established notEstablished))
                             [] (condition "Established" "False")
                             [condition "Established" "True"] eq_refl _ eq_refl)) _).
    + constructor.
    + left. reflexivity.
Defined.

Lemma separated_plain_composite :
  separated (Names.Categories (CompositeResourceDefinitionSpec.Names
                                 (CompositeResourceDefinition.Spec plain)))
    (length CompositeResourcePrinterColumns) plain.
Proof.
  split; repeat (apply Forall_cons; split); try apply Forall_nil; vm_compute; lia.
Defined.

Lemma separated_plain_claim claim :
  CompositeResourceDefinitionSpec.ClaimNames (CompositeResourceDefinition.Spec plain) =
    Some claim →
  separated (Names.Categories claim) (length CompositeResourceClaimPrinterColumns) plain.
Proof.
  intros [= <-].
  split; repeat (apply Forall_cons; split); try apply Forall_nil; vm_compute; lia.
Defined.

(** C1 at the example: the composite definition of [plain] is returned,
    its versions are the projections, and at the key "compositionRef",
    which the first version's schema and the standard properties share,
    the standard value is found. *)
Lemma layers_merge_in_order_witness :
  (∃ crd, (ForCompositeResource plain heap0).1 = Return (Some crd, None) ∧
     Forall2 (projects CompositeResourceSpecProps)
       (CompositeResourceDefinitionSpec.Versions (CompositeResourceDefinition.Spec plain))
       (CustomResourceDefinitionSpec.Versions (CustomResourceDefinition.Spec crd))) ∧
  (∃ crd, (ForCompositeResourceClaim plain heap0).1 = Return (Some crd, None) ∧
     Forall2 (projects CompositeResourceClaimSpecProps)
       (CompositeResourceDefinitionSpec.Versions (CompositeResourceDefinition.Spec plain))
       (CustomResourceDefinitionSpec.Versions (CustomResourceDefinition.Spec crd))) ∧
  under (layered (specProperties refSchema) CompositeResourceSpecProps) "spec"
    !! "compositionRef" = Some (typed "object" None).
Proof.
  split_and!.
  - eexists. split; [vm_compute; reflexivity|].
    apply (proj1 (layers_merge_in_order plain heap0)). vm_compute. reflexivity.
  - eexists. split; [vm_compute; reflexivity|].
    apply (proj1 (proj2 (layers_merge_in_order plain heap0))). vm_compute. reflexivity.
  - apply (proj2 (proj2 (layers_merge_in_order plain heap0)) baseDeclared_demo).
    vm_compute. reflexivity.
Defined.

Lemma wellFormed_unclaimed : wellFormed heap0 unclaimed.
Proof.
  split; repeat (apply Forall_cons; split); try apply Forall_nil;
    vm_compute; lia.
Defined.

(** C2 at the examples: the contents of [plain], whose categories have a
    spare cell that no slice shows, and the heap of [unclaimed]. *)
Lemma input_contents_kept_witness :
  contents (ForCompositeResource plain heap0).2 plain = contents heap0 plain ∧
  contents (ForCompositeResourceClaim plain heap0).2 plain = contents heap0 plain ∧
  (ForCompositeResourceClaim unclaimed heap0).2 = heap0.
Proof.
  split_and!.
  - apply (proj1 (input_contents_kept plain heap0 wellFormed_plain)).
    exact separated_plain_composite.
  - apply (proj1 (proj2 (input_contents_kept plain heap0 wellFormed_plain))).
    exact separated_plain_claim.
  - apply (proj2 (proj2 (input_contents_kept unclaimed heap0 wellFormed_unclaimed))).
    reflexivity.
Defined.

(** C2 does not hold of [sharing]: the composite function appends
    "composite" to the categories in place, into the cell that is the
    second category of the claim. *)
Lemma shared_array_is_overwritten :
  wellFormed heap0 sharing ∧
  (contents heap0 sharing).1.1 = [[]; ["all"]; []; ["all"; "mine"]] ∧
  (contents (ForCompositeResource sharing heap0).2 sharing).1.1 =
    [[]; ["all"]; []; ["all"; "composite"]] ∧
  contents (ForCompositeResource sharing heap0).2 sharing ≠ contents heap0 sharing.
Proof.
  split_and!.
  - split; repeat (apply Forall_cons; split); try apply Forall_nil; vm_compute; lia.
  - vm_compute. reflexivity.
  - vm_compute. reflexivity.
  - intros Heq. apply (f_equal (λ c, c.1.1)) in Heq. vm_compute in Heq. discriminate Heq.
Qed.



(** C5 at the example without claim names. *)
Lemma validateClaimNames_first_violation_witness :
  ForCompositeResourceClaim unclaimed heap0 =
  (Return (None, Some (errors_Wrap (errors_New errMissingClaimNames)
                         errInvalidClaimNames)), heap0).
Proof.
  apply (proj2 (proj2 (validateClaimNames_first_violation unclaimed))). reflexivity.
Defined.

(** C6 at the example: the second version does not parse. *)
Lemma parse_failure_aborts_witness :
  ∃ before vr after val cause,
    CompositeResourceDefinitionSpec.Versions (CompositeResourceDefinition.Spec malformed) =
      before ++ vr :: after ∧
    parses before ∧
    CompositeResourceDefinitionVersion.Schema vr = Some val ∧
    json_Unmarshal (Raw (RawOpenAPIV3Schema val)) = inr cause ∧
    let err := errors_Wrap (errors_Wrap cause errParseValidation) errGetSpecProps in
    (ForCompositeResource malformed heap0).1 = Return (None, Some err) ∧
    (validateClaimNames malformed = None →
     (ForCompositeResourceClaim malformed heap0).1 = Return (None, Some err)) ∧
    (∀ e, validateClaimNames malformed = Some e →
     (ForCompositeResourceClaim malformed heap0).1 =
     Return (None, Some (errors_Wrap e errInvalidClaimNames))).
Proof.
  exact (parse_failure_aborts malformed heap0 baseDeclared_demo parses_malformed_not).
Defined.

(** C6 does not hold of [unclaimed]: its schema does not parse, and the
    claim function returns the error of the validation. *)
Lemma claim_validation_comes_first :
  baseDeclared ∧
  ¬ parses (CompositeResourceDefinitionSpec.Versions
              (CompositeResourceDefinition.Spec unclaimed)) ∧
  ∃ err, (ForCompositeResourceClaim unclaimed heap0).1 = Return (None, Some err) ∧
         err = errors_Wrap (errors_New errMissingClaimNames) errInvalidClaimNames ∧
         includes errGetSpecProps (Error err) = false.
Proof.
  split_and!.
  - exact baseDeclared_demo.
  - intros Hp. apply Forall_cons in Hp as [Hp _]. vm_compute in Hp. discriminate Hp.
  - eexists. split_and!; [reflexivity|reflexivity|vm_compute; reflexivity].
Qed.

(** C7 at the examples: the versions of [plain] in their order, and the
    success of both functions on two versions of one name that are both
    referenceable. *)
Lemma versions_in_order_witness :
  (∃ crd, (ForCompositeResource plain heap0).1 = Return (Some crd, None) ∧
     let versions :=
       CustomResourceDefinitionSpec.Versions (CustomResourceDefinition.Spec crd) in
     length versions = 2 ∧
     ∀ i vr,
       CompositeResourceDefinitionSpec.Versions (CompositeResourceDefinition.Spec plain)
         !! i = Some vr →
       ∃ v, versions !! i = Some v ∧
         CustomResourceDefinitionVersion.Name v =
           CompositeResourceDefinitionVersion.Name vr ∧
         CustomResourceDefinitionVersion.Served v =
           CompositeResourceDefinitionVersion.Served vr ∧
         CustomResourceDefinitionVersion.Storage v =
           CompositeResourceDefinitionVersion.Referenceable vr) ∧
  (∃ crd, (ForCompositeResource duplicated heap0).1 = Return (Some crd, None)) ∧
  (∃ crd, (ForCompositeResourceClaim duplicated heap0).1 = Return (Some crd, None)).
Proof.
  split_and!.
  - eexists. split; [vm_compute; reflexivity|].
    apply (proj1 (versions_in_order plain heap0)). left. vm_compute. reflexivity.
  - apply (proj2 (versions_in_order duplicated heap0) baseDeclared_demo parses_duplicated).
  - apply (proj2 (versions_in_order duplicated heap0) baseDeclared_demo parses_duplicated).
    reflexivity.
Defined.

(** C8 at the example. *)
Lemma claim_derivation_succeeds_witness :
  ∃ crd categories,
    (ForCompositeResourceClaim plain heap0).1 = Return (Some crd, None) ∧
    ObjectMeta.Name (CustomResourceDefinition.Meta crd) = "thingclaims.example.org" ∧
    CustomResourceDefinitionSpec.Scope (CustomResourceDefinition.Spec crd) =
      NamespaceScoped ∧
    CustomResourceDefinitionSpec.Names (CustomResourceDefinition.Spec crd) =
      withCategories (names "ThingClaim" "thingclaims" nilSlice) categories ∧
    (wf (strings heap0) nilSlice →
     elements (strings (ForCompositeResourceClaim plain heap0).2) categories =
     elements (strings heap0) nilSlice ++ [CategoryClaim]).
Proof.
  apply (claim_derivation_succeeds plain heap0
           (names "ThingClaim" "thingclaims" nilSlice) baseDeclared_demo eq_refl).
  - intros Heq. discriminate Heq.
  - intros Heq. discriminate Heq.
  - intros Hne. by destruct Hne.
  - intros Hne. by destruct Hne.
  - exact parses_plain.
Defined.

(** C8 does not hold of [malformed]: its claim names are apart from
    those of the composite, and the claim function returns an error. *)
Lemma distinct_names_schema_fails :
  baseDeclared ∧
  ∃ claim,
    CompositeResourceDefinitionSpec.ClaimNames (CompositeResourceDefinition.Spec malformed) =
      Some claim ∧
    Names.Kind claim ≠ "Thing" ∧ Names.Plural claim ≠ "things" ∧
    Names.Singular claim = "" ∧ Names.ListKind claim = "" ∧
    (ForCompositeResourceClaim malformed heap0).1 =
    Return (None, Some (errors_Wrap
                          (errors_Wrap (errors_New "unexpected end of JSON input")
                             errParseValidation)
                          errGetSpecProps)).
Proof.
  split; [exact baseDeclared_demo|]. eexists. split; [reflexivity|].
  split_and!; [intros Heq; discriminate Heq|intros Heq; discriminate Heq
              |reflexivity|reflexivity|vm_compute; reflexivity].
Qed.

(** C9 at the examples: no schema, the document of the example, and the
    empty input. *)
Lemma getSpecProps_cases_witness :
  getSpecProps None = (None, None) ∧
  getSpecProps (Some {| RawOpenAPIV3Schema := {| Raw := refDocument |} |}) =
    (specProperties refSchema, None) ∧
  getSpecProps (Some {| RawOpenAPIV3Schema := {| Raw := emptyDocument |} |}) =
    (None, None).
Proof.
  split_and!.
  - apply (proj1 (getSpecProps_cases None)). reflexivity.
  - apply (proj1 (proj2 (getSpecProps_cases
             (Some {| RawOpenAPIV3Schema := {| Raw := refDocument |} |})))
             _ refSchema eq_refl).
    vm_compute. reflexivity.
  - apply (proj1 (proj2 (getSpecProps_cases
             (Some {| RawOpenAPIV3Schema := {| Raw := emptyDocument |} |})))
             _ zeroJSONSchemaProps eq_refl); vm_compute; reflexivity.
Defined.

(** C10 at the example. *)
Lemma claim_names_never_nil_witness :
  is_Some (CompositeResourceDefinitionSpec.ClaimNames
             (CompositeResourceDefinition.Spec plain)).
Proof. apply (proj1 (claim_names_never_nil plain heap0)). reflexivity. Defined.

(** ** The further properties at the examples *)

Lemma composite_plain :
  ∃ crd h', ForCompositeResource plain heap0 = (Return (Some crd, None), h').
Proof. do 2 eexists. vm_compute. reflexivity. Defined.

Lemma claim_plain :
  ∃ crd h', ForCompositeResourceClaim plain heap0 = (Return (Some crd, None), h').
Proof. do 2 eexists. vm_compute. reflexivity. Defined.

Lemma composite_roomy :
  ∃ crd h',
    ForCompositeResource Roomy.definition Roomy.heap0 = (Return (Some crd, None), h').
Proof. do 2 eexists. vm_compute. reflexivity. Defined.

Lemma claim_roomy :
  ∃ crd h',
    ForCompositeResourceClaim Roomy.definition Roomy.heap0 =
    (Return (Some crd, None), h').
Proof. do 2 eexists. vm_compute. reflexivity. Defined.

Lemma wf_roomy : Forall (wf (columns Roomy.heap0)) (columnSlices Roomy.definition).
Proof. repeat (apply Forall_cons; split); try apply Forall_nil; vm_compute; lia. Defined.

Lemma clear_roomy k : clear k (columnSlices Roomy.definition).
Proof. split; [constructor|exact I]. Defined.

(** X2 at two entries in their two orders. *)
Lemma rangeAssign_any_order_witness :
  rangeAssign 0 "spec"
    [("a", typed "string" None); ("b", typed "object" None)]
    [newVersion (version "v1" true true None nilSlice) nilSlice] =
  rangeAssign 0 "spec"
    [("b", typed "object" None); ("a", typed "string" None)]
    [newVersion (version "v1" true true None nilSlice) nilSlice].
Proof.
  apply rangeAssign_any_order.
  - apply perm_swap.
  - apply NoDup_cons. split; [|apply NoDup_singleton].
    intros Hin. apply list_elem_of_singleton in Hin. discriminate Hin.
Defined.

(** X3 at the example. *)
Lemma ForCompositeResource_outcome_witness :
  ((∃ crd, (ForCompositeResource plain heap0).1 = Return (Some crd, None)) ↔
   parses (CompositeResourceDefinitionSpec.Versions
             (CompositeResourceDefinition.Spec plain))) ∧
  ((∃ err, (ForCompositeResource plain heap0).1 = Return (None, Some err)) ↔
   ¬ parses (CompositeResourceDefinitionSpec.Versions
               (CompositeResourceDefinition.Spec plain))) ∧
  ((∃ crd, (ForCompositeResource plain heap0).1 = Return (Some crd, None)) ∨
   (∃ err, (ForCompositeResource plain heap0).1 = Return (None, Some err))).
Proof. exact (ForCompositeResource_outcome plain heap0 baseDeclared_demo). Defined.

(** X4 at the example. *)
Lemma ForCompositeResourceClaim_outcome_witness :
  ((∃ crd, (ForCompositeResourceClaim malformed heap0).1 = Return (Some crd, None)) ↔
   validateClaimNames malformed = None ∧
   parses (CompositeResourceDefinitionSpec.Versions
             (CompositeResourceDefinition.Spec malformed))) ∧
  ((∃ err, (ForCompositeResourceClaim malformed heap0).1 = Return (None, Some err)) ↔
   ¬ (validateClaimNames malformed = None ∧
      parses (CompositeResourceDefinitionSpec.Versions
                (CompositeResourceDefinition.Spec malformed)))) ∧
  ((∃ crd, (ForCompositeResourceClaim malformed heap0).1 = Return (Some crd, None)) ∨
   (∃ err, (ForCompositeResourceClaim malformed heap0).1 = Return (None, Some err))).
Proof. exact (ForCompositeResourceClaim_outcome malformed heap0 baseDeclared_demo). Defined.

(** X5 at the example. *)
Lemma ForCompositeResource_identity_witness :
  ∃ crd,
    (ForCompositeResource plain heap0).1 = Return (Some crd, None) ∧
    ObjectMeta.Name (CustomResourceDefinition.Meta crd) = "things.example.org" ∧
    ObjectMeta.Labels (CustomResourceDefinition.Meta crd) = Some 0.
Proof.
  destruct composite_plain as (crd & h' & Hr). exists crd.
  assert ((ForCompositeResource plain heap0).1 = Return (Some crd, None)) as Hr1
    by by rewrite Hr.
  split; [exact Hr1|].
  pose proof (ForCompositeResource_identity plain heap0 crd Hr1) as Hw.
  cbv zeta in Hw. exact (conj (proj1 Hw) (proj1 (proj2 Hw))).
Defined.

(** X6 at the example. *)
Lemma ForCompositeResourceClaim_identity_witness :
  ∃ crd,
    (ForCompositeResourceClaim plain heap0).1 = Return (Some crd, None) ∧
    ObjectMeta.Labels (CustomResourceDefinition.Meta crd) = Some 0 ∧
    ObjectMeta.Annotations (CustomResourceDefinition.Meta crd) = None.
Proof.
  destruct claim_plain as (crd & h' & Hr). exists crd.
  assert ((ForCompositeResourceClaim plain heap0).1 = Return (Some crd, None)) as Hr1
    by by rewrite Hr.
  split; [exact Hr1|].
  pose proof (ForCompositeResourceClaim_identity plain heap0 crd Hr1) as Hw.
  cbv zeta in Hw. exact (conj (proj1 Hw) (proj1 (proj2 Hw))).
Defined.

(** X7 at the example. *)
Lemma ForCompositeResource_categories_witness :
  ∃ crd,
    (ForCompositeResource plain heap0).1 = Return (Some crd, None) ∧
    elements (strings (ForCompositeResource plain heap0).2)
      (Names.Categories (CustomResourceDefinitionSpec.Names
                           (CustomResourceDefinition.Spec crd))) =
    elements (strings heap0) (Slice 1 0 1 2) ++ [CategoryComposite].
Proof.
  destruct composite_plain as (crd & h' & Hr). exists crd.
  assert ((ForCompositeResource plain heap0).1 = Return (Some crd, None)) as Hr1
    by by rewrite Hr.
  split; [exact Hr1|].
  apply (ForCompositeResource_categories plain heap0 crd); [|exact Hr1].
  vm_compute. lia.
Defined.

(** X8 at the example with room: the categories come back in place. *)
Lemma ForCompositeResource_extends_in_place_witness :
  ∃ crd h',
    ForCompositeResource Roomy.definition Roomy.heap0 = (Return (Some crd, None), h') ∧
    Names.Categories (CustomResourceDefinitionSpec.Names
                        (CustomResourceDefinition.Spec crd)) = Slice 1 0 2 2.
Proof.
  destruct composite_roomy as (crd & h' & Hr). exists crd, h'. split; [exact Hr|].
  apply (proj1 (ForCompositeResource_extends_in_place Roomy.definition Roomy.heap0
                  crd h' Hr)).
  vm_compute. lia.
Defined.

(** X9 at the example with room. *)
Lemma ForCompositeResourceClaim_extends_in_place_witness :
  ∃ crd h' claim,
    ForCompositeResourceClaim Roomy.definition Roomy.heap0 =
      (Return (Some crd, None), h') ∧
    CompositeResourceDefinitionSpec.ClaimNames
      (CompositeResourceDefinition.Spec Roomy.definition) = Some claim ∧
    Forall2 (λ vr v,
               let s := CompositeResourceDefinitionVersion.AdditionalPrinterColumns vr in
               len s + length CompositeResourceClaimPrinterColumns ≤ cap s →
               CustomResourceDefinitionVersion.AdditionalPrinterColumns v =
               extended (length CompositeResourceClaimPrinterColumns) s)
      (CompositeResourceDefinitionSpec.Versions
         (CompositeResourceDefinition.Spec Roomy.definition))
      (CustomResourceDefinitionSpec.Versions (CustomResourceDefinition.Spec crd)).
Proof.
  destruct claim_roomy as (crd & h' & Hr).
  destruct (ForCompositeResourceClaim_extends_in_place Roomy.definition Roomy.heap0
              crd h' Hr) as (claim & Hc & _ & Hall).
  exists crd, h', claim. split_and!; [exact Hr|exact Hc|exact Hall].
Defined.

(** X10 at the example. *)
Lemma IsEstablished_any_order_witness :
  IsEstablished Roomy.unordered = IsEstablished Roomy.reordered.
Proof.
  apply IsEstablished_any_order.
  - apply perm_swap.
  - vm_compute. lia.
Defined.

(** X11 at the examples. *)
Lemma invalid_claim_names_message_witness :
  (∃ err, (ForCompositeResourceClaim unclaimed heap0).1 = Return (None, Some err) ∧
          Error err = "invalid resource claim names: missing names") ∧
  (∃ err, (ForCompositeResourceClaim conflicting heap0).1 = Return (None, Some err) ∧
          Error err = "invalid resource claim names: " +:+ strconv_Quote "Thing" +:+
                      " conflicts with composite resource name").
Proof.
  split.
  - apply (proj1 (invalid_claim_names_message unclaimed heap0)). reflexivity.
  - apply (proj2 (invalid_claim_names_message conflicting heap0) FieldKind "Thing").
    reflexivity.
Defined.

(** X12 at the example with room. *)
Lemma ForCompositeResource_printer_columns_witness :
  ∃ crd h',
    ForCompositeResource Roomy.definition Roomy.heap0 = (Return (Some crd, None), h') ∧
    Forall2 (λ vr v,
               elements (columns h')
                 (CustomResourceDefinitionVersion.AdditionalPrinterColumns v) =
               elements (columns Roomy.heap0)
                 (CompositeResourceDefinitionVersion.AdditionalPrinterColumns vr) ++
               CompositeResourcePrinterColumns)
      (CompositeResourceDefinitionSpec.Versions
         (CompositeResourceDefinition.Spec Roomy.definition))
      (CustomResourceDefinitionSpec.Versions (CustomResourceDefinition.Spec crd)).
Proof.
  destruct composite_roomy as (crd & h' & Hr). exists crd, h'. split; [exact Hr|].
  exact (ForCompositeResource_printer_columns Roomy.definition Roomy.heap0 crd h'
           wf_roomy (clear_roomy _) Hr).
Defined.

(** X13 at the example with room. *)
Lemma ForCompositeResourceClaim_printer_columns_witness :
  ∃ crd h',
    ForCompositeResourceClaim Roomy.definition Roomy.heap0 =
      (Return (Some crd, None), h') ∧
    Forall2 (λ vr v,
               elements (columns h')
                 (CustomResourceDefinitionVersion.AdditionalPrinterColumns v) =
               elements (columns Roomy.heap0)
                 (CompositeResourceDefinitionVersion.AdditionalPrinterColumns vr) ++
               CompositeResourceClaimPrinterColumns)
      (CompositeResourceDefinitionSpec.Versions
         (CompositeResourceDefinition.Spec Roomy.definition))
      (CustomResourceDefinitionSpec.Versions (CustomResourceDefinition.Spec crd)).
Proof.
  destruct claim_roomy as (crd & h' & Hr). exists crd, h'. split; [exact Hr|].
  exact (ForCompositeResourceClaim_printer_columns Roomy.definition Roomy.heap0 crd h'
           wf_roomy (clear_roomy _) Hr).
Defined.



(** X15 at the example. *)
Lemma parse_failure_message_witness :
  ∃ before vr after val cause err,
    CompositeResourceDefinitionSpec.Versions (CompositeResourceDefinition.Spec malformed) =
      before ++ vr :: after ∧
    parses before ∧
    CompositeResourceDefinitionVersion.Schema vr = Some val ∧
    json_Unmarshal (Raw (RawOpenAPIV3Schema val)) = inr cause ∧
    (ForCompositeResource malformed heap0).1 = Return (None, Some err) ∧
    Error err =
      "cannot get spec properties from validation schema: " +:+
      "cannot parse validation schema: " +:+ Error cause.
Proof.
  exact (parse_failure_message malformed heap0 baseDeclared_demo parses_malformed_not).
Defined.

(** X16 at the example without versions. *)
Lemma no_versions_no_failure_witness :
  (∃ crd, (ForCompositeResource Roomy.empty heap0).1 = Return (Some crd, None) ∧
          CustomResourceDefinitionSpec.Versions (CustomResourceDefinition.Spec crd) = []) ∧
  (∃ crd, (ForCompositeResourceClaim Roomy.empty heap0).1 = Return (Some crd, None) ∧
          CustomResourceDefinitionSpec.Versions (CustomResourceDefinition.Spec crd) = []).
Proof.
  split.
  - apply (proj1 (no_versions_no_failure Roomy.empty heap0 eq_refl)).
  - apply (proj2 (no_versions_no_failure Roomy.empty heap0 eq_refl)). reflexivity.
Defined.
